(** * A netstring / JSON-RPC command server over a serial line

    Shallow embedding of [json_rpc.py]: the [TimeoutChecker] class, the
    netstring codec ([receive_netstring], [send_netstring]), the request
    validator ([parse_request]), the dispatcher ([handle_request]), the
    response builders ([create_response], [create_error_response]) and one
    turn of the service loop ([run]).

    Conventions of the embedding.
    - Python [bytes] are [list byte]; Python [str] is [string].
    - Python [int] is [N] or [Z]; wall-clock readings ([time.time()]) and
      durations are [Z], counted in milliseconds (5.0 s is 5000, 0.2 s is
      200).  The clock only moves when the program sleeps.
    - A Python exception is a constructor of [exn]; a call that may raise
      returns an [outcome].
    - The two [while] loops of [receive_netstring] and the loop of
      [blocking_until_data_available] take a fuel argument: [None] means the
      loop was still running when the fuel ran out.
    - [print] and [sys.stderr.write] only log and are left out. *)

From Stdlib Require Import ZArith NArith List String Ascii Lia Bool.
From Stdlib Require Import Decimal DecimalString DecimalN DecimalZ.
From Stdlib.Strings Require Import Byte.
From Stdlib.Floats Require Import SpecFloat.
Import ListNotations.
Local Open Scope string_scope.

Set Implicit Arguments.
Set Warnings "-register-all".

(* ================================================================== *)
(** ** Python built-ins used by the code *)

Module Py.

(** [b.decode('ascii')] on one byte: fails on a byte above 0x7f. *)
Definition is_ascii_byte (b : byte) : bool := (Byte.to_N b <? 128)%N.

Definition is_ascii_char (c : ascii) : bool := (N_of_ascii c <? 128)%N.

(** [data.decode('ascii')]: [None] stands for [UnicodeDecodeError]. *)
Fixpoint decode_ascii (bs : list byte) : option string :=
  match bs with
  | [] => Some ""
  | b :: bs' =>
      if is_ascii_byte b then
        match decode_ascii bs' with
        | Some s => Some (String (ascii_of_byte b) s)
        | None => None
        end
      else None
  end.

(** What a failed [data.decode('ascii')] reports: the first byte above 0x7f
    and its position in the data. *)
Fixpoint undecodable (bs : list byte) : option (byte * nat) :=
  match bs with
  | [] => None
  | b :: bs' =>
      if is_ascii_byte b then
        match undecodable bs' with
        | Some (b', position) => Some (b', S position)
        | None => None
        end
      else Some (b, O)
  end.

(** [s.encode('ascii')]: [None] stands for [UnicodeEncodeError]. *)
Fixpoint encode_ascii (s : string) : option (list byte) :=
  match s with
  | "" => Some []
  | String c s' =>
      if is_ascii_char c then
        match encode_ascii s' with
        | Some bs => Some (byte_of_ascii c :: bs)
        | None => None
        end
      else None
  end.

(** The number of characters above 0x7f at the head of [s]. *)
Fixpoint non_ascii_run (s : string) : nat :=
  match s with
  | "" => O
  | String c s' => if is_ascii_char c then O else S (non_ascii_run s')
  end.

(** What a failed [s.encode('ascii')] reports: the first run of characters
    above 0x7f, as its first character, its start and its end. *)
Fixpoint unencodable (s : string) : option (ascii * nat * nat) :=
  match s with
  | "" => None
  | String c s' =>
      if is_ascii_char c then
        match unencodable s' with
        | Some (c', start, stop) => Some (c', S start, S stop)
        | None => None
        end
      else Some (c, O, S (non_ascii_run s'))
  end.

Definition isdigit_char (c : ascii) : bool :=
  ((48 <=? N_of_ascii c) && (N_of_ascii c <=? 57))%N.

Fixpoint all_digits (s : string) : bool :=
  match s with
  | "" => true
  | String c s' => isdigit_char c && all_digits s'
  end.

(** [s.isdigit()]: every character is a digit and there is at least one. *)
Definition isdigit (s : string) : bool :=
  match s with
  | "" => false
  | _ => all_digits s
  end.

(** [str(n)] for a non-negative integer. *)
Definition str_of_int (n : N) : string :=
  NilEmpty.string_of_uint (N.to_uint n).

(** [int(s)] on a string of decimal digits; [None] stands for
    [ValueError].  The code only calls it on a string that passed
    [isdigit]. *)
Definition int_of_str (s : string) : option N :=
  if isdigit s then option_map N.of_uint (NilEmpty.uint_of_string s)
  else None.

(** One hexadecimal digit, and [format(n, '02x')] for [n] below 256. *)
Definition hex_digit (n : N) : ascii :=
  if (n <? 10)%N then ascii_of_N (48 + n) else ascii_of_N (87 + n).

Definition hex2 (n : N) : string :=
  String (hex_digit (n / 16)) (String (hex_digit (n mod 16)) "").

(** [ord(",")] and the colon, as a byte and as a one-character string. *)
Definition comma : byte := x2c.
Definition colon : string := ":".

End Py.

(* ================================================================== *)
(** ** Exceptions and outcomes *)

(** One constructor per [raise] of the program, and one per exception the
    interpreter raises on its behalf.  The two codec errors carry what their
    message prints: the offending byte or character and where it stands. *)
Inductive exn : Type :=
| TimeoutReadingNetstring            (* Exception("Timeout reading netstring.") *)
| MalformedNetstring                 (* Exception("Malformed netstring missing trailing comma.") *)
| InvalidRequest (cause : string)    (* Exception('Invalid JSONRPC request:', e) *)
| MethodNotSpecified                 (* Exception('Method not specified in JSONRPC request!') *)
| MethodMustBeString                 (* Exception('Method must be a string! ') *)
| InvalidParamsField                 (* Exception('Invalid "params" field in JSONRPC request! ') *)
| MethodMissing                      (* Exception('Invalid JSONRPC request: method is missing!') *)
| MethodNotFound                     (* Exception("Invalid JSONRPC request: method is not found!") *)
| UnicodeDecodeError (b : byte) (position : nat)
                                     (* bytes.decode('ascii'): the byte above 0x7f and where it is *)
| UnicodeEncodeError (c : ascii) (start stop : nat)
                                     (* str.encode('ascii'): the characters above 0x7f at start..stop-1 *)
| ValueError (msg : string)          (* int() on a non-number *)
| IndexError (msg : string)          (* data[-1] on empty bytes *)
| KeyError (key : string)            (* d[key] on a missing key *)
| TypeError (msg : string)
| AttributeError (msg : string)
| HandlerError (msg : string).       (* whatever a handler raises *)

Inductive outcome (A : Type) : Type :=
| Ret (a : A)
| Raise (e : exn).
Arguments Raise {A} e.

(** The exception of a [bs.decode('ascii')] that fails.  (A decoding fails
    only on a byte above 0x7f, so the second case does not occur.) *)
Definition decode_error (bs : list byte) : exn :=
  match Py.undecodable bs with
  | Some (b, position) => UnicodeDecodeError b position
  | None => UnicodeDecodeError x00 0
  end.

(** The exception of an [s.encode('ascii')] that fails. *)
Definition encode_error (s : string) : exn :=
  match Py.unencodable s with
  | Some (c, start, stop) => UnicodeEncodeError c start stop
  | None => UnicodeEncodeError Ascii.zero 0 0
  end.

(* ================================================================== *)
(** ** The serial transport *)

(** Modelled from the spec: the transport collaborator ([machine.UART]) is
    not part of the sources.  Its contract is [available() -> byte-count],
    [read(max_bytes) -> bytes-or-none] (non-blocking, none if nothing is
    ready) and [write(bytes)].  The byte source is [feed]: at the k-th poll
    of the line the bytes [feed k] have newly arrived and join the receive
    buffer [rx]; [tx] collects what was written. *)
Record UART : Type := mkUART {
  feed : nat -> list byte;
  polls : nat;
  rx : list byte;
  tx : list byte
}.

Definition uart_poll (u : UART) : UART :=
  mkUART (feed u) (S (polls u)) (rx u ++ feed u (polls u)) (tx u).

(** [uart.any()] *)
Definition uart_any (u : UART) : nat * UART :=
  let u' := uart_poll u in (List.length (rx u'), u').

(** [uart.read(n)] *)
Definition uart_read (n : nat) (u : UART) : option (list byte) * UART :=
  let u' := uart_poll u in
  match rx u' with
  | [] => (None, u')
  | _ => (Some (firstn n (rx u')),
          mkUART (feed u') (polls u') (skipn n (rx u')) (tx u'))
  end.

(** [uart.write(bs)] *)
Definition uart_write (bs : list byte) (u : UART) : UART :=
  mkUART (feed u) (polls u) (rx u) (tx u ++ bs).

(* ================================================================== *)
(** ** TimeoutChecker *)

Record TimeoutChecker : Type := mkTimeoutChecker {
  timeout_s : Z;
  interval_s : Z;
  last_updated_time : Z;
  start_time : Z
}.

(** The fields of the [ESP32] object together with the wall clock. *)
Record world : Type := mkWorld {
  now : Z;
  uart : UART;
  timeout_checker : TimeoutChecker
}.

Definition set_uart (w : world) (u : UART) : world :=
  mkWorld (now w) u (timeout_checker w).

Definition set_timeout_checker (w : world) (tc : TimeoutChecker) : world :=
  mkWorld (now w) (uart w) tc.

(** [time.sleep(d)] *)
Definition sleep (d : Z) (w : world) : world :=
  mkWorld (now w + d) (uart w) (timeout_checker w).

Module TC.

(** [TimeoutChecker.__init__] *)
Definition init (timeout interval : Z) (current_time : Z) : TimeoutChecker :=
  mkTimeoutChecker timeout interval current_time current_time.

(** [start_timer]: restart the timer; a falsy [timeout_s] (zero) keeps the
    old duration. *)
Definition start_timer (timeout : Z) (w : world) : world :=
  let tc := timeout_checker w in
  let tc1 := mkTimeoutChecker (timeout_s tc) (interval_s tc)
               (last_updated_time tc) (now w) in
  let tc2 := if (timeout =? 0)%Z then tc1
             else mkTimeoutChecker timeout (interval_s tc1)
                    (last_updated_time tc1) (start_time tc1) in
  set_timeout_checker w tc2.

Definition expired (w : world) : bool :=
  let current_time := now w in
  (current_time - start_time (timeout_checker w) >? timeout_s (timeout_checker w))%Z.

Definition elapsed (w : world) : Z :=
  let current_time := now w in
  (current_time - start_time (timeout_checker w))%Z.

Definition check_timeout (w : world) : outcome unit * world :=
  if expired w then (Raise TimeoutReadingNetstring, w)
  else (Ret tt, sleep (interval_s (timeout_checker w)) w).

End TC.

(** [ESP32.__init__]: a line [u] and a checker of 5 s polled every 0.2 s. *)
Definition ESP32_init (u : UART) (current_time : Z) : world :=
  mkWorld current_time u (TC.init 5000 200 current_time).

(* ================================================================== *)
(** ** The netstring codec *)

(** The header loop of [receive_netstring], entered with the accumulator
    [header_str]. *)
Fixpoint header_loop (fuel : nat) (header_str : string) (w : world)
  : option (outcome string * world) :=
  match fuel with
  | O => None
  | S fuel' =>
      match TC.check_timeout w with
      | (Raise e, w1) => Some (Raise e, w1)
      | (Ret _, w1) =>
          let '(r, u') := uart_read 1 (uart w1) in
          let w2 := set_uart w1 u' in
          match r with
          | None => header_loop fuel' header_str w2
          | Some header_byte =>
              match Py.decode_ascii header_byte with
              | None => Some (Raise (decode_error header_byte), w2)
              | Some header_char =>
                  if Py.isdigit header_char then
                    header_loop fuel' (header_str ++ header_char) w2
                  else if String.eqb header_char Py.colon && Py.isdigit header_str then
                    Some (Ret header_str, w2)
                  else
                    header_loop fuel' "" w2
              end
          end
      end
  end.

(** The payload loop: [while len(data) < data_len + 1]. *)
Fixpoint payload_loop (fuel : nat) (data_len : N) (data : list byte) (w : world)
  : option (outcome (list byte) * world) :=
  if (N.of_nat (List.length data) <? data_len + 1)%N then
    match fuel with
    | O => None
    | S fuel' =>
        match TC.check_timeout w with
        | (Raise e, w1) => Some (Raise e, w1)
        | (Ret _, w1) =>
            let '(r, u') :=
              uart_read (N.to_nat (data_len + 1 - N.of_nat (List.length data))) (uart w1) in
            let w2 := set_uart w1 u' in
            match r with
            | None => payload_loop fuel' data_len data w2
            | Some r => payload_loop fuel' data_len (data ++ r) w2
            end
        end
    end
  else Some (Ret data, w).

(** What follows the payload loop: the comma check, the cut and the
    decoding. *)
Definition finish_netstring (data : list byte) : outcome string :=
  match data with
  | [] => Raise (IndexError "index out of range")
  | _ =>
      if Byte.eqb (last data Py.comma) Py.comma then
        match Py.decode_ascii (removelast data) with
        | Some data_str => Ret data_str
        | None => Raise (decode_error (removelast data))
        end
      else Raise MalformedNetstring
  end.

Definition receive_netstring (fuel : nat) (timeout : Z) (w : world)
  : option (outcome string * world) :=
  let w0 := TC.start_timer timeout w in
  match header_loop fuel "" w0 with
  | None => None
  | Some (Raise e, w1) => Some (Raise e, w1)
  | Some (Ret header_str, w1) =>
      match Py.int_of_str header_str with
      | None => Some (Raise (ValueError "invalid literal for int()"), w1)
      | Some data_len =>
          match payload_loop fuel data_len [] w1 with
          | None => None
          | Some (Raise e, w2) => Some (Raise e, w2)
          | Some (Ret data, w2) => Some (finish_netstring data, w2)
          end
      end
  end.

(** The bytes [send_netstring] builds for an ASCII payload:
    [f"{length}:{payload},".encode("ascii")]. *)
Definition netstring (payload : string) : option (list byte) :=
  match Py.encode_ascii payload with
  | None => None
  | Some payload_bytes =>
      let length := N.of_nat (List.length payload_bytes) in
      Py.encode_ascii (Py.str_of_int length ++ ":" ++ payload ++ ",")
  end.

Definition send_netstring (payload : string) (w : world) : outcome unit * world :=
  match netstring payload with
  | None => (Raise (encode_error payload), w)
  | Some bs => (Ret tt, set_uart w (uart_write bs (uart w)))
  end.

(** [blocking_until_data_available]: poll [uart.any()] every 0.2 s. *)
Fixpoint blocking_until_data_available (fuel : nat) (w : world) : option world :=
  match fuel with
  | O => None
  | S fuel' =>
      let '(num_bytes_to_read, u') := uart_any (uart w) in
      let w1 := set_uart w u' in
      if (0 <? num_bytes_to_read)%nat then Some w1
      else blocking_until_data_available fuel' (sleep 200 w1)
  end.

(* ================================================================== *)
(** ** JSON values *)

(** What [json.loads] produces and [json.dumps] consumes.  A [dict] keeps its
    entries in order; a lookup takes the first entry with the key. *)
Inductive value : Type :=
| VNone
| VBool (b : bool)
| VInt (z : Z)
| VFloat (f : spec_float)
| VStr (s : string)
| VList (l : list value)
| VDict (d : list (string * value)).

(** Truth value of an object, as [if x:] and [not x] take it. *)
Definition truthy (v : value) : bool :=
  match v with
  | VNone => false
  | VBool b => b
  | VInt z => negb (z =? 0)%Z
  | VFloat (S754_zero _) => false
  | VFloat _ => true
  | VStr s => negb (String.eqb s "")
  | VList l => match l with [] => false | _ => true end
  | VDict d => match d with [] => false | _ => true end
  end.

Fixpoint assoc {A : Type} (key : string) (d : list (string * A)) : option A :=
  match d with
  | [] => None
  | (k, v) :: d' => if String.eqb k key then Some v else assoc key d'
  end.

Definition type_name (v : value) : string :=
  match v with
  | VNone => "NoneType"
  | VBool _ => "bool"
  | VInt _ => "int"
  | VFloat _ => "float"
  | VStr _ => "str"
  | VList _ => "list"
  | VDict _ => "dict"
  end.

Definition is_substring (key s : string) : bool :=
  match String.index 0 key s with
  | Some _ => true
  | None => false
  end.

(** [key in x] for a string [key]. *)
Definition py_contains (key : string) (x : value) : outcome bool :=
  match x with
  | VDict d => Ret (match assoc key d with Some _ => true | None => false end)
  | VList l =>
      Ret (existsb (fun v => match v with VStr s => String.eqb s key | _ => false end) l)
  | VStr s => Ret (is_substring key s)
  | _ => Raise (TypeError ("argument of type '" ++ type_name x ++ "' is not iterable"))
  end.

(** [x[key]] for a string [key]. *)
Definition py_getitem (x : value) (key : string) : outcome value :=
  match x with
  | VDict d =>
      match assoc key d with
      | Some v => Ret v
      | None => Raise (KeyError key)
      end
  | VList _ => Raise (TypeError "list indices must be integers or slices, not str")
  | VStr _ => Raise (TypeError "string indices must be integers, not 'str'")
  | _ => Raise (TypeError ("'" ++ type_name x ++ "' object is not subscriptable"))
  end.

(** [x.get(key, default)] *)
Definition py_get (x : value) (key : string) (default : value) : outcome value :=
  match x with
  | VDict d =>
      match assoc key d with
      | Some v => Ret v
      | None => Ret default
      end
  | _ => Raise (AttributeError ("'" ++ type_name x ++ "' object has no attribute 'get'"))
  end.

Definition isinstance_str (v : value) : bool :=
  match v with VStr _ => true | _ => false end.

(** [isinstance(v, (list, dict, type(None)))] *)
Definition isinstance_list_dict_none (v : value) : bool :=
  match v with VList _ | VDict _ | VNone => true | _ => false end.

Definition bind {A B : Type} (m : outcome A) (k : A -> outcome B) : outcome B :=
  match m with
  | Ret a => k a
  | Raise e => Raise e
  end.

Notation "x <- m ;; k" := (bind m (fun x => k))
  (at level 61, m at next level, right associativity).

(** A double quote, for the messages that carry one. *)
Definition dq : string := String "034"%char "".

(** [str(ex)] *)
Definition str_exn (ex : exn) : string :=
  match ex with
  | TimeoutReadingNetstring => "Timeout reading netstring."
  | MalformedNetstring => "Malformed netstring missing trailing comma."
  | InvalidRequest cause => "('Invalid JSONRPC request:', " ++ cause ++ ")"
  | MethodNotSpecified => "Method not specified in JSONRPC request!"
  | MethodMustBeString => "Method must be a string! "
  | InvalidParamsField => "Invalid " ++ dq ++ "params" ++ dq ++ " field in JSONRPC request! "
  | MethodMissing => "Invalid JSONRPC request: method is missing!"
  | MethodNotFound => "Invalid JSONRPC request: method is not found!"
  | UnicodeDecodeError b position =>
      "'ascii' codec can't decode byte 0x" ++ Py.hex2 (Byte.to_N b)
        ++ " in position " ++ Py.str_of_int (N.of_nat position)
        ++ ": ordinal not in range(128)"
  | UnicodeEncodeError c start stop =>
      if (stop =? S start)%nat then
        "'ascii' codec can't encode character '\x" ++ Py.hex2 (N_of_ascii c)
          ++ "' in position " ++ Py.str_of_int (N.of_nat start)
          ++ ": ordinal not in range(128)"
      else
        "'ascii' codec can't encode characters in position "
          ++ Py.str_of_int (N.of_nat start) ++ "-"
          ++ Py.str_of_int (N.of_nat (stop - 1))
          ++ ": ordinal not in range(128)"
  | ValueError msg => msg
  | IndexError msg => msg
  | KeyError key => "'" ++ key ++ "'"
  | TypeError msg => msg
  | AttributeError msg => msg
  | HandlerError msg => msg
  end.

(** A handler of the method table: called with named arguments, it returns a
    value or fails with a message.  Handlers are external to the server; a
    call whose arguments do not fit the handler's parameters counts as a
    failure of the handler.  [callee] is the text the interpreter prints for
    the callable in the messages of its own errors: the qualified name,
    after the name of its module, followed by a pair of parentheses. *)
Record handler : Type := mkHandler {
  callee : string;
  call : list (string * value) -> value + string
}.

Coercion call : handler >-> Funclass.

Section Server.

(** [json.loads]: the parsed value, or the [repr] of the error it raised. *)
Variable loads : string -> value + string.

(** [json.dumps] *)
Variable dumps : value -> string.

(** The method table [self.methods], built by the application before the
    server starts. *)
Variable methods : list (string * handler).

Definition parse_request (request : string) : outcome value :=
  match loads request with
  | inr e => Raise (InvalidRequest e)
  | inl request_dict =>
      has_method <- py_contains "method" request_dict ;;
      if negb has_method then Raise MethodNotSpecified
      else
        method <- py_getitem request_dict "method" ;;
        if negb (isinstance_str method) then Raise MethodMustBeString
        else
          has_params <- py_contains "params" request_dict ;;
          if has_params then
            params <- py_getitem request_dict "params" ;;
            if negb (isinstance_list_dict_none params) then Raise InvalidParamsField
            else Ret request_dict
          else Ret request_dict
  end.

(** [method not in self.methods] *)
Definition method_lookup (method : value) : outcome (option handler) :=
  match method with
  | VStr name => Ret (assoc name methods)
  | VList _ | VDict _ =>
      Raise (TypeError ("unhashable type: '" ++ type_name method ++ "'"))
  | _ => Ret None
  end.

(** The call [f( **params)]. *)
Definition call_with_kwargs (f : handler) (params : value) : outcome value :=
  match params with
  | VDict kwargs =>
      match f kwargs with
      | inl result => Ret result
      | inr msg => Raise (HandlerError msg)
      end
  | _ => Raise (TypeError (callee f ++ " argument after ** must be a mapping, not "
                             ++ type_name params))
  end.

Definition handle_request (request : value) : outcome value :=
  method <- py_get request "method" VNone ;;
  params <- py_get request "params" VNone ;;
  let params := if negb (truthy params) then VDict [] else params in
  if negb (truthy method) then Raise MethodMissing
  else
    found <- method_lookup method ;;
    match found with
    | None => Raise MethodNotFound
    | Some f => call_with_kwargs f params
    end.

(** The object [create_response] serialises. *)
Definition response_object (response id : value) : value :=
  if truthy id then VDict [("id", id); ("result", response)]
  else VDict [("id", VInt 0); ("result", response)].

Definition create_response (response id : value) : string :=
  dumps (response_object response id).

(** The object [create_error_response] serialises. *)
Definition error_object (error_msg : string) (id : value) : value :=
  if truthy id then
    VDict [("id", id);
           ("error", VDict [("message", VStr error_msg); ("code", VInt (-1))])]
  else
    VDict [("id", VInt 0);
           ("error", VDict [("message", VStr error_msg); ("code", VInt (-1))])].

Definition create_error_response (error_msg : string) (id : value) : string :=
  dumps (error_object error_msg id).

(** The [try] block of [run]: its outcome, together with the local
    [request_id] as it stands when the block is left. *)
Definition run_try (fuel : nat) (w : world)
  : option (outcome value * value * world) :=
  let request_id := VNone in
  match blocking_until_data_available fuel w with
  | None => None
  | Some w1 =>
      match receive_netstring fuel 5000 w1 with
      | None => None
      | Some (Raise ex, w2) => Some (Raise ex, request_id, w2)
      | Some (Ret s_request, w2) =>
          match parse_request s_request with
          | Raise ex => Some (Raise ex, request_id, w2)
          | Ret o_request =>
              match py_get o_request "id" VNone with
              | Raise ex => Some (Raise ex, request_id, w2)
              | Ret request_id => Some (handle_request o_request, request_id, w2)
              end
          end
      end
  end.

(** One turn of the [while True] of [run]: the [try] block, then the
    [except Exception] or the [else] clause, then [finally].  [None]: the
    turn is still waiting or reading; [Raise]: an exception leaves the
    loop. *)
Definition run_once (fuel : nat) (w : world) : option (outcome unit * world) :=
  match run_try fuel w with
  | None => None
  | Some (r, request_id, w1) =>
      let s_response :=
        match r with
        | Raise ex => create_error_response (str_exn ex) request_id
        | Ret o_result => create_response o_result request_id
        end in
      Some (send_netstring s_response w1)
  end.

(** [turns] turns of the loop, each with [fuel] for its inner loops. *)
Fixpoint run (turns fuel : nat) (w : world) : option (outcome unit * world) :=
  match turns with
  | O => Some (Ret tt, w)
  | S turns' =>
      match run_once fuel w with
      | None => None
      | Some (Raise ex, w1) => Some (Raise ex, w1)
      | Some (Ret _, w1) => run turns' fuel w1
      end
  end.

End Server.

(* ================================================================== *)
(** ** Vocabulary of the statements *)

(** The bytes that arrive on the line during the next [k] polls. *)
Definition arrived (u : UART) (k : nat) : list byte :=
  List.concat (map (feed u) (seq (polls u) k)).

(** A line whose receive buffer holds [bs] and on which nothing else
    arrives. *)
Definition quiet_line (bs : list byte) : UART :=
  mkUART (fun _ => []) 0 bs [].

(** The world after a [check_timeout] that did not raise. *)
Definition tick (w : world) : world :=
  sleep (interval_s (timeout_checker w)) w.

(** The world after one turn of the header loop: a passed check and a
    [uart.read(1)]. *)
Definition after_read1 (w : world) : world :=
  set_uart (tick w) (snd (uart_read 1 (uart w))).

(** The world after one turn of the payload loop: a passed check and a
    [uart.read(n)]. *)
Definition after_read (n : nat) (w : world) : world :=
  set_uart (tick w) (snd (uart_read n (uart w))).

(** The outcome of a run, without the final world. *)
Definition result_of {A : Type} (r : option (outcome A * world)) : option (outcome A) :=
  option_map fst r.

(** The next [k] calls of [check_timeout] do not raise. *)
Definition budget (k : nat) (w : world) : Prop :=
  forall i, (i < k)%nat ->
    (now w + Z.of_nat i * interval_s (timeout_checker w)
       - start_time (timeout_checker w) <= timeout_s (timeout_checker w))%Z.

(** How many more calls of [check_timeout] can pass. *)
Definition ticks_left (w : world) : nat :=
  Z.to_nat ((timeout_s (timeout_checker w)
             - (now w - start_time (timeout_checker w)))
            / interval_s (timeout_checker w) + 1).

Definition isdigit_byte (b : byte) : bool :=
  ((48 <=? Byte.to_N b) && (Byte.to_N b <=? 57))%N.

Definition colon_byte : byte := x3a.

(** An ASCII byte that is no digit. *)
Definition corrupt_byte (b : byte) : bool :=
  Py.is_ascii_byte b && negb (isdigit_byte b).

(** A line that holds and receives only ASCII bytes that are no digits. *)
Definition corrupt_only (u : UART) : Prop :=
  Forall (fun b => corrupt_byte b = true) (rx u) /\
  forall k, Forall (fun b => corrupt_byte b = true) (feed u k).

(** A line that holds and receives only ASCII bytes. *)
Definition ascii_line (u : UART) : Prop :=
  Forall (fun b => Py.is_ascii_byte b = true) (rx u) /\
  forall k, Forall (fun b => Py.is_ascii_byte b = true) (feed u k).

(** Within its time budget the line supplies a complete frame: a header and
    the [data_len + 1] bytes after it. *)
Definition supplies_frame (fuel : nat) (timeout : Z) (w : world) : Prop :=
  exists header_str w1 data_len data w2,
    header_loop fuel "" (TC.start_timer timeout w) = Some (Ret header_str, w1) /\
    Py.int_of_str header_str = Some data_len /\
    payload_loop fuel data_len [] w1 = Some (Ret data, w2).

(** [w'] is [w] after [k] passed checks and polls of the line. *)
Definition advanced (k : nat) (w w' : world) : Prop :=
  timeout_checker w' = timeout_checker w /\
  now w' = (now w + Z.of_nat k * interval_s (timeout_checker w))%Z /\
  feed (uart w') = feed (uart w) /\
  polls (uart w') = (polls (uart w) + k)%nat /\
  tx (uart w') = tx (uart w).

(** A request that went through the validator. *)
Definition validated (loads : string -> value + string) (request : value) : Prop :=
  exists text, parse_request loads text = Ret request.

(** The id an envelope carries for a request id, in the words of the
    id-or-default rule: the id itself when it is present and truthy, the
    sentinel 0 otherwise. *)
Definition id_or_default (id : value) : value :=
  if truthy id then id else VInt 0.

(** The parameter set a [params] value stands for: a mapping gives its
    entries, an absent or empty one gives none.  [None] marks a value that
    is no parameter set. *)
Definition parameter_set (params : value) : option (list (string * value)) :=
  match params with
  | VDict kwargs => Some kwargs
  | VNone | VList [] => Some []
  | _ => None
  end.

(** ** Sample data

    A method table as the module header describes it, and stand-ins for
    [json.loads] and [json.dumps] that agree with the library on the texts
    and values used below. *)
Module Sample.

Definition q (s : string) : string := dq ++ s ++ dq.

(** [{"method":"set_led_color","id":0,"params":{"rgb":[255,0,0]}}] *)
Definition set_led_text : string :=
  "{" ++ q "method" ++ ":" ++ q "set_led_color" ++ "," ++ q "id" ++ ":0,"
      ++ q "params" ++ ":{" ++ q "rgb" ++ ":[255,0,0]}}".

Definition set_led_request : value :=
  VDict [("method", VStr "set_led_color"); ("id", VInt 0);
         ("params", VDict [("rgb", VList [VInt 255; VInt 0; VInt 0])])].

(** [{"method":"nonsense_func","id":7,"params":{"rgb":[255,0,0]}}] *)
Definition nonsense_text : string :=
  "{" ++ q "method" ++ ":" ++ q "nonsense_func" ++ "," ++ q "id" ++ ":7,"
      ++ q "params" ++ ":{" ++ q "rgb" ++ ":[255,0,0]}}".

Definition nonsense_request : value :=
  VDict [("method", VStr "nonsense_func"); ("id", VInt 7);
         ("params", VDict [("rgb", VList [VInt 255; VInt 0; VInt 0])])].

(** [{"method":""}] *)
Definition empty_method_text : string :=
  "{" ++ q "method" ++ ":" ++ q "" ++ "}".

Definition empty_method_request : value := VDict [("method", VStr "")].

(** [{"method":"nonsense_func","params":[1]}] *)
Definition list_params_text : string :=
  "{" ++ q "method" ++ ":" ++ q "nonsense_func" ++ "," ++ q "params" ++ ":[1]}".

Definition list_params_request : value :=
  VDict [("method", VStr "nonsense_func"); ("params", VList [VInt 1])].

(** [{"method":"set_led_color","params":[255,0,0]}] *)
Definition led_list_text : string :=
  "{" ++ q "method" ++ ":" ++ q "set_led_color" ++ "," ++ q "params" ++ ":[255,0,0]}".

Definition led_list_request : value :=
  VDict [("method", VStr "set_led_color");
         ("params", VList [VInt 255; VInt 0; VInt 0])].

(** [{"id":0,"params":{"rgb":[255,0,0]}}] *)
Definition no_method_text : string :=
  "{" ++ q "id" ++ ":0," ++ q "params" ++ ":{" ++ q "rgb" ++ ":[255,0,0]}}".

Definition no_method_request : value :=
  VDict [("id", VInt 0);
         ("params", VDict [("rgb", VList [VInt 255; VInt 0; VInt 0])])].

Definition texts : list (string * value) :=
  [ (set_led_text, set_led_request);
    (nonsense_text, nonsense_request);
    (empty_method_text, empty_method_request);
    (list_params_text, list_params_request);
    (led_list_text, led_list_request);
    (no_method_text, no_method_request);
    ("1", VInt 1);
    ("null", VNone);
    ("[]", VList []) ].

Definition loads (text : string) : value + string :=
  match assoc text texts with
  | Some v => inl v
  | None => inr "JSONDecodeError('Expecting value')"
  end.

(** Compact serialisation; strings are written without escapes and floats
    are not printed. *)
Fixpoint dumps (v : value) : string :=
  match v with
  | VNone => "null"
  | VBool true => "true"
  | VBool false => "false"
  | VInt z => NilZero.string_of_int (Z.to_int z)
  | VFloat _ => "NaN"
  | VStr s => q s
  | VList l =>
      "[" ++ (fix items (l : list value) : string :=
                match l with
                | [] => ""
                | x :: l' =>
                    dumps x ++ match l' with [] => "" | _ => ", " ++ items l' end
                end) l ++ "]"
  | VDict d =>
      "{" ++ (fix entries (d : list (string * value)) : string :=
                match d with
                | [] => ""
                | (k, x) :: d' =>
                    q k ++ ": " ++ dumps x
                      ++ match d' with [] => "" | _ => ", " ++ entries d' end
                end) d ++ "}"
  end.

(** [set_led_color(rgb)]: sets the pixel and reports [{"status": True}]. *)
Definition set_led_color : handler :=
  mkHandler "__main__.ESP32.set_led_color()" (fun kwargs =>
    match kwargs with
    | [("rgb", VList [VInt _; VInt _; VInt _])] => inl (VDict [("status", VBool true)])
    | _ => inr "set_led_color() got unexpected arguments"
    end).

Definition methods : list (string * handler) :=
  [("set_led_color", set_led_color)].

(** A table that registers a handler under the empty name. *)
Definition methods_with_empty_name : list (string * handler) :=
  [("", set_led_color)].

(** A server whose receive buffer holds [bs], at time 0. *)
Definition server (bs : list byte) : world := ESP32_init (quiet_line bs) 0.

(** The frame of an ASCII text. *)
Definition frame (text : string) : list byte :=
  match netstring text with
  | Some bs => bs
  | None => []
  end.

End Sample.

(** ** Vocabulary of the further properties *)

(** What the line holds once the next [k] polls have come in. *)
Definition pending (u : UART) (k : nat) : list byte :=
  (rx u ++ arrived u k)%list.

(** A line that holds nothing and on which nothing ever arrives. *)
Definition silent (u : UART) : Prop :=
  rx u = [] /\ forall k, feed u k = [].

(** The line delivers [bs] first, in whatever pieces and at whatever polls:
    at every moment what has come in is a prefix of [bs], or [bs] is a
    prefix of it. *)
Definition delivers (u : UART) (bs : list byte) : Prop :=
  forall k,
    (exists rest, (pending u k ++ rest)%list = bs) \/
    (exists more, (bs ++ more)%list = pending u k).

(** A line with an empty buffer on which the pieces [chunks] arrive, one per
    poll, and nothing after them. *)
Definition chunked_line (chunks : list (list byte)) : UART :=
  mkUART (fun k => nth k chunks []) 0 [] [].

(** [k] zeros. *)
Fixpoint zeros (k : nat) : string :=
  match k with
  | O => ""
  | S k' => String "0"%char (zeros k')
  end.

(** A serialiser made ASCII by writing a question mark for every other
    character. *)
Fixpoint to_ascii (s : string) : string :=
  match s with
  | "" => ""
  | String c s' =>
      String (if Py.is_ascii_char c then c else "?"%char) (to_ascii s')
  end.

Definition ascii_dumps (v : value) : string := to_ascii (Sample.dumps v).

(* ================================================================== *)
(** * Properties *)

(** ** Bytes, characters and decimal numerals *)

Module PyFacts.
Import Py.

Lemma to_N_byte_of_ascii (c : ascii) : Byte.to_N (byte_of_ascii c) = N_of_ascii c.
Proof.
  apply Byte.to_of_N. symmetry. apply byte_of_ascii_via_N.
Qed.

Lemma N_of_ascii_of_byte (b : byte) : N_of_ascii (ascii_of_byte b) = Byte.to_N b.
Proof.
  rewrite ascii_of_byte_via_N. apply N_ascii_embedding.
  pose proof (Byte.to_N_bounded b). lia.
Qed.

Lemma decode_encode_ascii (s : string) :
  forall bs, encode_ascii s = Some bs -> decode_ascii bs = Some s.
Proof.
  induction s as [|c s IH]; simpl; intros bs H.
  - now inversion H.
  - destruct (is_ascii_char c) eqn:Hc; [|discriminate].
    destruct (encode_ascii s) as [bs'|]; [|discriminate].
    inversion H; subst; clear H. simpl.
    unfold is_ascii_byte. rewrite to_N_byte_of_ascii.
    unfold is_ascii_char in Hc. rewrite Hc, (IH bs' eq_refl).
    now rewrite ascii_of_byte_of_ascii.
Qed.

Lemma encode_ascii_length (s : string) :
  forall bs, encode_ascii s = Some bs -> List.length bs = String.length s.
Proof.
  induction s as [|c s IH]; simpl; intros bs H.
  - now inversion H.
  - destruct (is_ascii_char c); [|discriminate].
    destruct (encode_ascii s) as [bs'|]; [|discriminate].
    inversion H; subst. simpl. now rewrite (IH bs' eq_refl).
Qed.

Lemma encode_ascii_app (s t : string) :
  encode_ascii (s ++ t) =
  match encode_ascii s, encode_ascii t with
  | Some a, Some b => Some (a ++ b)%list
  | _, _ => None
  end.
Proof.
  induction s as [|c s IH]; simpl.
  - now destruct (encode_ascii t).
  - destruct (is_ascii_char c); [|reflexivity].
    rewrite IH. destruct (encode_ascii s), (encode_ascii t); reflexivity.
Qed.

Lemma non_ascii_run_length (s : string) :
  (non_ascii_run s <= String.length s)%nat.
Proof.
  induction s as [|c s IH]; simpl; [lia|].
  destruct (is_ascii_char c); lia.
Qed.

(** A failed encoding reports a character above 0x7f of the text. *)
Lemma unencodable_spec (s : string) :
  encode_ascii s = None ->
  exists c start stop,
    unencodable s = Some (c, start, stop) /\
    String.get start s = Some c /\
    is_ascii_char c = false /\
    (start < stop <= String.length s)%nat.
Proof.
  induction s as [|c s IH]; simpl; [discriminate|].
  destruct (is_ascii_char c) eqn:Hc.
  - intros H. destruct (encode_ascii s); [discriminate|].
    destruct (IH eq_refl) as (c' & start & stop & -> & Hg & Hc' & Hlt).
    exists c', (S start), (S stop). repeat split; auto; lia.
  - intros _. exists c, O, (S (non_ascii_run s)).
    pose proof (non_ascii_run_length s).
    repeat split; auto; lia.
Qed.

(** A failed decoding reports a byte above 0x7f of the data. *)
Lemma undecodable_spec (bs : list byte) :
  decode_ascii bs = None ->
  exists b position,
    undecodable bs = Some (b, position) /\
    nth_error bs position = Some b /\
    is_ascii_byte b = false.
Proof.
  induction bs as [|b bs IH]; simpl; [discriminate|].
  destruct (is_ascii_byte b) eqn:Hb.
  - intros H. destruct (decode_ascii bs); [discriminate|].
    destruct (IH eq_refl) as (b' & position & -> & Hn & Hb').
    exists b', (S position). repeat split; auto.
  - intros _. exists b, O. repeat split; auto.
Qed.

Lemma all_digits_string_of_uint (d : uint) :
  all_digits (NilEmpty.string_of_uint d) = true.
Proof. induction d; simpl; auto. Qed.

Lemma string_of_uint_ascii (d : uint) :
  encode_ascii (NilEmpty.string_of_uint d) <> None.
Proof.
  induction d; simpl; try discriminate;
    destruct (encode_ascii (NilEmpty.string_of_uint d)); congruence.
Qed.

Lemma to_uint_nonnil (n : N) : N.to_uint n <> Nil.
Proof.
  destruct n; simpl; [discriminate | apply DecimalPos.Unsigned.to_uint_nonnil].
Qed.

Lemma all_digits_str_of_int (n : N) : all_digits (str_of_int n) = true.
Proof. apply all_digits_string_of_uint. Qed.

Lemma str_of_int_nonempty (n : N) : str_of_int n <> "".
Proof.
  unfold str_of_int. pose proof (to_uint_nonnil n) as H.
  destruct (N.to_uint n); simpl; congruence.
Qed.

Lemma isdigit_str_of_int (n : N) : isdigit (str_of_int n) = true.
Proof.
  pose proof (str_of_int_nonempty n) as H.
  pose proof (all_digits_str_of_int n) as Hd.
  unfold isdigit. destruct (str_of_int n); congruence.
Qed.

(** [int(str(n)) == n] *)
Lemma int_of_str_of_int (n : N) : int_of_str (str_of_int n) = Some n.
Proof.
  unfold int_of_str. rewrite isdigit_str_of_int.
  unfold str_of_int. rewrite NilEmpty.usu. simpl.
  now rewrite DecimalN.Unsigned.of_to.
Qed.

Lemma str_of_int_ascii (n : N) :
  exists ds, encode_ascii (str_of_int n) = Some ds.
Proof.
  pose proof (string_of_uint_ascii (N.to_uint n)) as H. unfold str_of_int.
  destruct (encode_ascii (NilEmpty.string_of_uint (N.to_uint n))) as [ds|];
    [now exists ds | congruence].
Qed.

Lemma all_digits_app (s t : string) :
  all_digits (s ++ t) = all_digits s && all_digits t.
Proof.
  induction s as [|c s IH]; simpl; [reflexivity|].
  now rewrite IH, andb_assoc.
Qed.

(** A string that passed [isdigit] is a numeral: [int] does not raise. *)
Lemma int_of_str_isdigit (s : string) :
  isdigit s = true -> exists n, int_of_str s = Some n.
Proof.
  intros H. unfold int_of_str. rewrite H.
  assert (Hall : all_digits s = true) by (destruct s; [discriminate | exact H]).
  clear H.
  assert (exists d, NilEmpty.uint_of_string s = Some d) as [d Hd].
  { induction s as [|c s IH]; simpl; [now eexists|].
    simpl in Hall. apply andb_true_iff in Hall as [Hc Hs].
    destruct (IH Hs) as [d Hd]. rewrite Hd.
    unfold isdigit_char in Hc.
    destruct c as [[] [] [] [] [] [] [] []]; simpl in Hc; try discriminate;
      simpl; eexists; reflexivity. }
  rewrite Hd. simpl. now eexists.
Qed.

End PyFacts.

(** ** The line and the clock *)

Section LineFacts.

Lemma arrived_S (u : UART) (k : nat) :
  arrived u (S k) = (feed u (polls u) ++ arrived (uart_poll u) k)%list.
Proof. reflexivity. Qed.

Lemma arrived_0 (u : UART) : arrived u 0 = [].
Proof. reflexivity. Qed.

(** What a [read] returns and leaves behind. *)
Lemma uart_read_spec (n : nat) (u : UART) :
  let '(r, u') := uart_read n u in
  feed u' = feed u /\ polls u' = S (polls u) /\ tx u' = tx u /\
  match r with
  | None => rx u' = [] /\ (rx u ++ feed u (polls u))%list = []
  | Some bs =>
      (bs ++ rx u')%list = (rx u ++ feed u (polls u))%list /\
      bs = firstn n (rx u ++ feed u (polls u)) /\
      (rx u ++ feed u (polls u))%list <> []
  end.
Proof.
  unfold uart_read, uart_poll. simpl.
  destruct (rx u ++ feed u (polls u))%list as [|b l]; simpl.
  - repeat split; reflexivity.
  - repeat split; try reflexivity.
    + destruct n; simpl; [reflexivity|]. now rewrite firstn_skipn.
    + discriminate.
Qed.

Lemma uart_read_head (n : nat) (u : UART) (b : byte) (rest : list byte) :
  rx u = b :: rest ->
  uart_read (S n) u =
    (Some (b :: firstn n (rest ++ feed u (polls u))),
     mkUART (feed u) (S (polls u)) (skipn n (rest ++ feed u (polls u))) (tx u)).
Proof.
  intros H. unfold uart_read. simpl. rewrite H. reflexivity.
Qed.

Lemma check_timeout_pass (w : world) :
  TC.expired w = false -> TC.check_timeout w = (Ret tt, tick w).
Proof. intros H. unfold TC.check_timeout. now rewrite H. Qed.

Lemma check_timeout_fail (w : world) :
  TC.expired w = true -> TC.check_timeout w = (Raise TimeoutReadingNetstring, w).
Proof. intros H. unfold TC.check_timeout. now rewrite H. Qed.

Lemma budget_not_expired (k : nat) (w : world) :
  budget (S k) w -> TC.expired w = false.
Proof.
  intros H. specialize (H 0%nat ltac:(lia)). unfold TC.expired.
  simpl in H. rewrite Z.gtb_ltb. apply Z.ltb_ge. lia.
Qed.

Lemma budget_tick (k : nat) (w : world) (u : UART) :
  budget (S k) w -> budget k (set_uart (tick w) u).
Proof.
  intros H i Hi. specialize (H (S i) ltac:(lia)).
  unfold set_uart, tick, sleep. simpl. lia.
Qed.

Lemma budget_weaken (k k' : nat) (w : world) :
  (k' <= k)%nat -> budget k w -> budget k' w.
Proof. intros Hk H i Hi. apply H. lia. Qed.

(** A closed form of [budget] when the interval is not negative. *)
Lemma budget_intro (k : nat) (w : world) :
  (0 <= interval_s (timeout_checker w))%Z ->
  (now w + Z.of_nat k * interval_s (timeout_checker w)
     - start_time (timeout_checker w) <= timeout_s (timeout_checker w))%Z ->
  budget (S k) w.
Proof.
  intros HI H i Hi. 
  assert (Z.of_nat i * interval_s (timeout_checker w)
          <= Z.of_nat k * interval_s (timeout_checker w))%Z by nia.
  lia.
Qed.

Lemma ticks_left_expired (w : world) :
  (0 < interval_s (timeout_checker w))%Z ->
  TC.expired w = true -> ticks_left w = 0%nat.
Proof.
  intros HI H. unfold TC.expired in H. rewrite Z.gtb_ltb in H. apply Z.ltb_lt in H.
  unfold ticks_left.
  set (a := (timeout_s (timeout_checker w)
             - (now w - start_time (timeout_checker w)))%Z) in *.
  assert (a / interval_s (timeout_checker w) < 0)%Z
    by (apply Z.div_lt_upper_bound; lia).
  lia.
Qed.

Lemma ticks_left_tick (w : world) (u : UART) :
  (0 < interval_s (timeout_checker w))%Z ->
  TC.expired w = false ->
  ticks_left w = S (ticks_left (set_uart (tick w) u)).
Proof.
  intros HI H. unfold TC.expired in H. rewrite Z.gtb_ltb in H. apply Z.ltb_ge in H.
  unfold ticks_left, set_uart, tick, sleep. simpl.
  set (I := interval_s (timeout_checker w)) in *.
  set (a := (timeout_s (timeout_checker w)
             - (now w - start_time (timeout_checker w)))%Z) in *.
  replace (timeout_s (timeout_checker w)
           - (now w + I - start_time (timeout_checker w)))%Z
    with (a + (-1) * I)%Z by (unfold a; lia).
  rewrite Z.div_add by lia.
  assert (0 <= a / I)%Z by (apply Z.div_pos; lia).
  lia.
Qed.

End LineFacts.

(** ** The header loop *)

Section HeaderLoop.
Import Py.

Lemma header_loop_expired (fuel : nat) (acc : string) (w : world) :
  TC.expired w = true ->
  header_loop (S fuel) acc w = Some (Raise TimeoutReadingNetstring, w).
Proof. intros H. simpl. now rewrite (check_timeout_fail _ H). Qed.

(** One turn of the loop when the check passes. *)
Lemma header_loop_pass (fuel : nat) (acc : string) (w : world) :
  TC.expired w = false ->
  header_loop (S fuel) acc w =
    match fst (uart_read 1 (uart w)) with
    | None => header_loop fuel acc (after_read1 w)
    | Some header_byte =>
        match decode_ascii header_byte with
        | None => Some (Raise (decode_error header_byte), after_read1 w)
        | Some header_char =>
            if isdigit header_char then
              header_loop fuel (acc ++ header_char) (after_read1 w)
            else if String.eqb header_char colon && isdigit acc then
              Some (Ret acc, after_read1 w)
            else header_loop fuel "" (after_read1 w)
        end
    end.
Proof.
  intros H. simpl. rewrite (check_timeout_pass _ H).
  unfold after_read1. change (uart (tick w)) with (uart w).
  destruct (uart_read 1 (uart w)) as [r u']. reflexivity.
Qed.

Lemma advanced_refl (w : world) : advanced 0 w w.
Proof. unfold advanced. simpl. repeat split; try reflexivity; lia. Qed.

Lemma advanced_after_read1 (w : world) : advanced 1 w (after_read1 w).
Proof.
  unfold advanced, after_read1, set_uart, tick, sleep.
  pose proof (uart_read_spec 1 (uart w)) as H.
  destruct (uart_read 1 (uart w)) as [r u']. cbn -[Z.mul Z.add Z.of_nat].
  destruct H as (Hf & Hp & Ht & _). repeat split; auto; lia.
Qed.

Lemma advanced_trans (j k : nat) (w1 w2 w3 : world) :
  advanced j w1 w2 -> advanced k w2 w3 -> advanced (j + k) w1 w3.
Proof.
  unfold advanced. intros (A1 & A2 & A3 & A4 & A5) (B1 & B2 & B3 & B4 & B5).
  rewrite B1, B2, B3, B4, B5, A1, A2, A3, A4, A5. repeat split; try reflexivity; lia.
Qed.

Lemma budget_after_read1 (k : nat) (w : world) :
  budget (S k) w -> budget k (after_read1 w).
Proof. apply budget_tick. Qed.

Lemma decode_ascii_single (b : byte) :
  is_ascii_byte b = true ->
  decode_ascii [b] = Some (String (ascii_of_byte b) "").
Proof. intros H. simpl. now rewrite H. Qed.

Lemma isdigit_single (c : ascii) : isdigit (String c "") = isdigit_char c.
Proof. simpl. apply andb_true_r. Qed.

Lemma isdigit_char_of_byte (b : byte) :
  isdigit_char (ascii_of_byte b) = isdigit_byte b.
Proof.
  unfold isdigit_char, isdigit_byte. now rewrite PyFacts.N_of_ascii_of_byte.
Qed.

Lemma append_single (acc : string) (c : ascii) (s : string) :
  (acc ++ String c "") ++ s = acc ++ String c s.
Proof. induction acc as [|a acc IH]; simpl; [reflexivity | now rewrite IH]. Qed.

Lemma append_empty_r (s : string) : s ++ "" = s.
Proof. induction s as [|a s IH]; simpl; [reflexivity | now rewrite IH]. Qed.

(** The world after reading the first byte of a buffer that holds one. *)
Lemma after_read1_head (w : world) (b : byte) (rest : list byte) :
  rx (uart w) = b :: rest ->
  fst (uart_read 1 (uart w)) = Some [b] /\
  rx (uart (after_read1 w)) = (rest ++ feed (uart w) (polls (uart w)))%list.
Proof.
  intros H. unfold after_read1.
  rewrite (uart_read_head 0 (uart w) H). simpl. split; reflexivity.
Qed.

(** Reading a run of digits appends it to the accumulator. *)
Lemma header_loop_digits (s : string) :
  forall ds acc rest fuel w,
    all_digits s = true ->
    encode_ascii s = Some ds ->
    rx (uart w) = (ds ++ rest)%list ->
    budget (String.length s) w ->
    exists w',
      header_loop (String.length s + fuel) acc w = header_loop fuel (acc ++ s) w' /\
      advanced (String.length s) w w' /\
      rx (uart w') = (rest ++ arrived (uart w) (String.length s))%list.
Proof.
  induction s as [|c s IH]; intros ds acc rest fuel w Hd He Hrx Hb.
  - simpl in He. inversion He; subst. simpl in Hrx. exists w. simpl.
    rewrite append_empty_r, arrived_0, app_nil_r.
    repeat split; auto. apply advanced_refl.
  - simpl in Hd, He. apply andb_true_iff in Hd as [Hc Hs].
    destruct (is_ascii_char c) eqn:Hac; [|discriminate].
    destruct (encode_ascii s) as [ds'|] eqn:Hes; [|discriminate].
    inversion He; subst ds; clear He. simpl in Hrx.
    destruct (after_read1_head w Hrx) as [Hr Hrx'].
    change (String.length (String c s) + fuel)%nat
      with (S (String.length s + fuel)).
    rewrite (header_loop_pass _ _ _ (budget_not_expired Hb)), Hr.
    rewrite decode_ascii_single
      by (unfold is_ascii_byte; now rewrite PyFacts.to_N_byte_of_ascii).
    rewrite isdigit_single, ascii_of_byte_of_ascii, Hc.
    rewrite <- app_assoc in Hrx'.
    destruct (IH ds' (acc ++ String c "") _ fuel (after_read1 w) Hs eq_refl Hrx'
                (budget_after_read1 Hb)) as (w' & Heq & Hadv & Hrx'').
    exists w'. rewrite Heq, append_single. split; [reflexivity|]. split.
    + apply (advanced_trans (advanced_after_read1 w) Hadv).
    + rewrite Hrx'', <- app_assoc. f_equal.
      simpl String.length. rewrite arrived_S. f_equal.
      unfold arrived. f_equal.
      pose proof (advanced_after_read1 w) as (_ & _ & Hf & Hp & _).
      rewrite Hf, Hp. simpl. f_equal. f_equal. lia.
Qed.

(** The colon after a numeral ends the header. *)
Lemma header_loop_colon (fuel : nat) (acc : string) (w : world) (rest : list byte) :
  TC.expired w = false ->
  rx (uart w) = colon_byte :: rest ->
  isdigit acc = true ->
  header_loop (S fuel) acc w = Some (Ret acc, after_read1 w).
Proof.
  intros He Hrx Hacc. destruct (after_read1_head w Hrx) as [Hr _].
  rewrite (header_loop_pass _ _ _ He), Hr. simpl. now rewrite Hacc.
Qed.

End HeaderLoop.

(** ** The payload loop *)

Section PayloadLoop.
Import Py.

Lemma payload_loop_done (fuel : nat) (data_len : N) (data : list byte) (w : world) :
  (N.of_nat (List.length data) <? data_len + 1)%N = false ->
  payload_loop fuel data_len data w = Some (Ret data, w).
Proof. intros H. destruct fuel; simpl; now rewrite H. Qed.

Lemma payload_loop_expired (fuel : nat) (data_len : N) (data : list byte) (w : world) :
  (N.of_nat (List.length data) <? data_len + 1)%N = true ->
  TC.expired w = true ->
  payload_loop (S fuel) data_len data w = Some (Raise TimeoutReadingNetstring, w).
Proof. intros H He. simpl. now rewrite H, (check_timeout_fail _ He). Qed.

Lemma payload_loop_pass (fuel : nat) (data_len : N) (data : list byte) (w : world) :
  (N.of_nat (List.length data) <? data_len + 1)%N = true ->
  TC.expired w = false ->
  payload_loop (S fuel) data_len data w =
    let n := N.to_nat (data_len + 1 - N.of_nat (List.length data)) in
    match fst (uart_read n (uart w)) with
    | None => payload_loop fuel data_len data (after_read n w)
    | Some r => payload_loop fuel data_len (data ++ r)%list (after_read n w)
    end.
Proof.
  intros H He. cbn [payload_loop]. rewrite H, (check_timeout_pass _ He).
  unfold after_read. change (uart (tick w)) with (uart w).
  destruct (uart_read _ (uart w)) as [r u']. reflexivity.
Qed.

Lemma advanced_after_read (n : nat) (w : world) : advanced 1 w (after_read n w).
Proof.
  unfold advanced, after_read, set_uart, tick, sleep.
  pose proof (uart_read_spec n (uart w)) as H.
  destruct (uart_read n (uart w)) as [r u']. cbn -[Z.mul Z.add Z.of_nat].
  destruct H as (Hf & Hp & Ht & _). repeat split; auto; lia.
Qed.

Lemma firstn_length_app (A : Type) (a b : list A) :
  firstn (List.length a) (a ++ b) = a.
Proof. induction a as [|x a IH]; simpl; [reflexivity | now rewrite IH]. Qed.

Lemma skipn_length_app (A : Type) (a b : list A) :
  skipn (List.length a) (a ++ b) = b.
Proof. induction a as [|x a IH]; simpl; [reflexivity | exact IH]. Qed.

(** A frame body that is already buffered is read in one turn. *)
Lemma payload_loop_buffered (fuel : nat) (pb more : list byte) (w : world) :
  TC.expired w = false ->
  rx (uart w) = (pb ++ [comma] ++ more)%list ->
  exists w',
    payload_loop (S fuel) (N.of_nat (List.length pb)) [] w
      = Some (Ret (pb ++ [comma])%list, w') /\
    advanced 1 w w' /\
    rx (uart w') = (more ++ arrived (uart w) 1)%list.
Proof.
  intros He Hrx.
  set (n := N.to_nat (N.of_nat (List.length pb) + 1 - N.of_nat (@List.length byte []))).
  assert (Hn : n = List.length (pb ++ [comma])%list).
  { unfold n. rewrite length_app. simpl. lia. }
  exists (after_read n w).
  rewrite payload_loop_pass; [|simpl; apply N.ltb_lt; lia | exact He].
  fold n. cbv zeta.
  pose proof (uart_read_spec n (uart w)) as Hspec.
  unfold after_read, set_uart.
  destruct (uart_read n (uart w)) as [r u'] eqn:Eread.
  destruct Hspec as (Hf & Hp & Ht & Hr).
  assert (Hall : (rx (uart w) ++ feed (uart w) (polls (uart w)))%list
                 = ((pb ++ [comma]) ++ (more ++ feed (uart w) (polls (uart w))))%list).
  { rewrite Hrx. now rewrite <- !app_assoc. }
  destruct r as [bs|]; simpl fst; simpl snd.
  - destruct Hr as (Happ & Hbs & _).
    rewrite Hall, Hn, firstn_length_app in Hbs. subst bs.
    rewrite Hall in Happ. apply app_inv_head in Happ.
    cbn [app]. rewrite payload_loop_done.
    + split; [reflexivity|]. split.
      * pose proof (advanced_after_read n w) as Ha.
        unfold after_read, set_uart in Ha. now rewrite Eread in Ha.
      * cbn [uart rx]. rewrite Happ. f_equal.
        unfold arrived. simpl. now rewrite app_nil_r.
    + apply N.ltb_ge. rewrite !length_app. simpl. lia.
  - destruct Hr as (_ & Hnil). rewrite Hall in Hnil.
    destruct pb; discriminate.
Qed.

Lemma finish_netstring_frame (pb : list byte) (payload : string) :
  decode_ascii pb = Some payload ->
  finish_netstring (pb ++ [comma]) = Ret payload.
Proof.
  intros H. unfold finish_netstring.
  destruct (pb ++ [comma])%list eqn:E; [destruct pb; discriminate|].
  rewrite <- E. rewrite last_last, removelast_last, H. reflexivity.
Qed.

End PayloadLoop.

(** ** The round trip *)

Section RoundTrip.
Import Py.

Lemma budget_advanced (j k : nat) (w w' : world) :
  budget (j + k) w -> advanced j w w' -> budget k w'.
Proof.
  intros Hb (Htc & Hnow & _) i Hi. specialize (Hb (j + i)%nat ltac:(lia)).
  rewrite Htc, Hnow. lia.
Qed.

(** The frame layout: decimal length, colon, payload, comma. *)
Lemma netstring_layout (payload : string) (bs : list byte) :
  netstring payload = Some bs ->
  exists ds pb,
    encode_ascii (str_of_int (N.of_nat (String.length payload))) = Some ds /\
    encode_ascii payload = Some pb /\
    List.length pb = String.length payload /\
    bs = (ds ++ colon_byte :: pb ++ [comma])%list.
Proof.
  unfold netstring. intros H.
  destruct (encode_ascii payload) as [pb|] eqn:Hp; [|discriminate].
  pose proof (PyFacts.encode_ascii_length _ Hp) as Hlen.
  rewrite Hlen in H.
  destruct (PyFacts.str_of_int_ascii (N.of_nat (String.length payload))) as [ds Hds].
  rewrite !PyFacts.encode_ascii_app, Hds, Hp in H. simpl in H.
  inversion H; subst. exists ds, pb. repeat split; auto.
Qed.

Lemma start_timer_uart (timeout : Z) (w : world) :
  uart (TC.start_timer timeout w) = uart w.
Proof. reflexivity. Qed.

Lemma start_timer_elapsed (timeout : Z) (w : world) :
  start_time (timeout_checker (TC.start_timer timeout w))
    = now (TC.start_timer timeout w).
Proof. unfold TC.start_timer. simpl. now destruct (timeout =? 0)%Z. Qed.

Lemma start_timer_interval (timeout : Z) (w : world) :
  interval_s (timeout_checker (TC.start_timer timeout w))
    = interval_s (timeout_checker w).
Proof. unfold TC.start_timer. simpl. now destruct (timeout =? 0)%Z. Qed.

(** Decoding a buffered frame, from the start of the header loop. *)
Lemma receive_buffered_frame (payload : string) (bs more : list byte)
      (timeout : Z) (fuel : nat) (w : world) :
  let n := String.length (str_of_int (N.of_nat (String.length payload))) in
  netstring payload = Some bs ->
  rx (uart w) = (bs ++ more)%list ->
  budget (n + 2) (TC.start_timer timeout w) ->
  (n + 1 <= fuel)%nat ->
  exists w',
    receive_netstring fuel timeout w = Some (Ret payload, w') /\
    tx (uart w') = tx (uart w) /\
    rx (uart w') = (more ++ arrived (uart w) (n + 2))%list.
Proof.
  intros n Hnet Hrx Hb Hfuel.
  destruct (netstring_layout _ Hnet) as (ds & pb & Hds & Hpb & Hlen & ->).
  unfold receive_netstring.
  set (w0 := TC.start_timer timeout w) in *.
  assert (Hrx0 : rx (uart w0) = (ds ++ (colon_byte :: pb ++ [comma] ++ more))%list).
  { unfold w0. rewrite start_timer_uart, Hrx. rewrite <- !app_assoc. simpl.
    now rewrite <- !app_assoc. }
  assert (Hbn : budget n w0)
    by (apply (@budget_weaken (n + 2) n); [lia | exact Hb]).
  destruct (@header_loop_digits _ ds "" _ (S (fuel - n - 1)) w0
              (PyFacts.all_digits_str_of_int _) Hds Hrx0 Hbn)
    as (w1 & Heq1 & Hadv1 & Hrx1).
  fold n in Heq1, Hadv1, Hrx1.
  replace (n + S (fuel - n - 1))%nat with fuel in Heq1 by lia.
  rewrite Heq1. simpl append.
  assert (Hb1 : budget 2 w1) by (apply (budget_advanced (j:=n) Hb Hadv1)).
  rewrite <- app_comm_cons in Hrx1.
  rewrite (@header_loop_colon _ _ w1 _ (budget_not_expired Hb1) Hrx1
             (PyFacts.isdigit_str_of_int _)).
  rewrite PyFacts.int_of_str_of_int.
  pose proof (advanced_after_read1 w1) as Hadv2.
  destruct (after_read1_head w1 Hrx1) as [_ Hrx2].
  assert (Hb2 : budget 1 (after_read1 w1)) by (apply (budget_after_read1 Hb1)).
  rewrite <- Hlen.
  rewrite <- !app_assoc in Hrx2.
  destruct fuel as [|fuel']; [lia|].
  destruct (@payload_loop_buffered fuel' pb _ _ (budget_not_expired Hb2) Hrx2)
    as (w3 & Heq3 & Hadv3 & Hrx3).
  rewrite Heq3, (finish_netstring_frame _ (PyFacts.decode_encode_ascii _ Hpb)).
  exists w3. split; [reflexivity|].
  pose proof (advanced_trans (advanced_trans Hadv1 Hadv2) Hadv3) as Hadv.
  destruct Hadv as (_ & _ & Hf & Hp & Ht). split.
  - rewrite Ht. reflexivity.
  - rewrite Hrx3. rewrite <- !app_assoc. f_equal.
    destruct Hadv1 as (_ & _ & Hf1 & Hp1 & _).
    destruct Hadv2 as (_ & _ & Hf2 & Hp2 & _).
    unfold arrived. rewrite Hf2, Hp2, Hf1, Hp1. unfold w0.
    rewrite start_timer_uart.
    replace (n + 2)%nat with (n + 1 + 1)%nat by lia.
    rewrite !seq_app, !map_app, !concat_app. simpl.
    rewrite !app_nil_r. rewrite <- app_assoc, Nat.add_assoc. reflexivity.
Qed.

End RoundTrip.

(** ** Header corruption *)

Section Corruption.
Import Py.

Lemma eqb_colon_of_byte (b : byte) :
  String.eqb (String (ascii_of_byte b) "") colon = Byte.eqb b colon_byte.
Proof. destruct b; reflexivity. Qed.

(** A byte that neither extends nor ends the header empties the
    accumulator. *)
Lemma header_loop_reset (fuel : nat) (acc : string) (w : world) (b : byte) :
  TC.expired w = false ->
  fst (uart_read 1 (uart w)) = Some [b] ->
  is_ascii_byte b = true ->
  isdigit_byte b = false ->
  Byte.eqb b colon_byte && isdigit acc = false ->
  header_loop (S fuel) acc w = header_loop fuel "" (after_read1 w).
Proof.
  intros He Hr Ha Hd Hc.
  rewrite (header_loop_pass _ _ _ He), Hr, (decode_ascii_single _ Ha).
  now rewrite isdigit_single, isdigit_char_of_byte, Hd, eqb_colon_of_byte, Hc.
Qed.

Lemma Forall_firstn (A : Type) (P : A -> Prop) (n : nat) (l : list A) :
  Forall P l -> Forall P (firstn n l).
Proof.
  intros H. revert n. induction H; intros [|n]; simpl; constructor; auto.
Qed.

Lemma Forall_skipn (A : Type) (P : A -> Prop) (n : nat) (l : list A) :
  Forall P l -> Forall P (skipn n l).
Proof.
  intros H. revert n. induction H; intros [|n]; simpl; auto.
Qed.

(** What is read from a line, and what is left on it, keeps a property
    that every byte of the line has. *)
Lemma uart_read_Forall (P : byte -> Prop) (n : nat) (u : UART) :
  Forall P (rx u) -> (forall k, Forall P (feed u k)) ->
  Forall P (rx (snd (uart_read n u))) /\
  (forall k, Forall P (feed (snd (uart_read n u)) k)) /\
  match fst (uart_read n u) with
  | Some bs => Forall P bs
  | None => True
  end.
Proof.
  intros Hrx Hfeed.
  assert (Hall : Forall P (rx u ++ feed u (polls u))%list)
    by (apply Forall_app; split; auto).
  unfold uart_read, uart_poll. simpl.
  destruct (rx u ++ feed u (polls u))%list as [|b l] eqn:E; simpl.
  - repeat split; auto.
  - repeat split; auto.
    + now apply Forall_skipn.
    + now apply Forall_firstn.
Qed.

Lemma uart_read1_single (u : UART) (bs : list byte) :
  fst (uart_read 1 u) = Some bs -> exists b, bs = [b].
Proof.
  unfold uart_read, uart_poll. simpl.
  destruct (rx u ++ feed u (polls u))%list as [|b l]; simpl; [discriminate|].
  intros H. inversion H. now exists b.
Qed.

Lemma corrupt_only_after_read1 (w : world) :
  corrupt_only (uart w) -> corrupt_only (uart (after_read1 w)).
Proof.
  intros [Hrx Hfeed]. unfold after_read1, set_uart. simpl.
  destruct (@uart_read_Forall _ 1 (uart w) Hrx Hfeed) as (H1 & H2 & _).
  split; assumption.
Qed.

(** While only corrupt bytes arrive, the header loop can end by the
    timeout alone. *)
Lemma header_loop_corrupt_only (fuel : nat) :
  forall w, corrupt_only (uart w) ->
    header_loop fuel "" w = None \/
    exists w', header_loop fuel "" w = Some (Raise TimeoutReadingNetstring, w').
Proof.
  induction fuel as [|fuel IH]; intros w Hc; [now left|].
  destruct (TC.expired w) eqn:He.
  - right. exists w. now apply header_loop_expired.
  - pose proof (@corrupt_only_after_read1 w Hc) as Hc'.
    destruct Hc as [Hrx Hfeed].
    destruct (@uart_read_Forall _ 1 (uart w) Hrx Hfeed) as (_ & _ & Hbs).
    destruct (fst (uart_read 1 (uart w))) as [bs|] eqn:Hr.
    + destruct (@uart_read1_single _ _ Hr) as [b ->].
      inversion Hbs as [|? ? Hb _]; subst.
      unfold corrupt_byte in Hb. apply andb_true_iff in Hb as [Ha Hd].
      apply negb_true_iff in Hd.
      rewrite (@header_loop_reset fuel "" w b He Hr Ha Hd)
        by (simpl; apply andb_false_r).
      now apply IH.
    + rewrite (header_loop_pass _ _ _ He), Hr. now apply IH.
Qed.

End Corruption.

(** ** What the payload loop consumes *)

Section PayloadReads.
Import Py.

Lemma arrived_ext (u u' : UART) (k : nat) :
  feed u' = feed u -> polls u' = polls u -> arrived u' k = arrived u k.
Proof. intros Hf Hp. unfold arrived. now rewrite Hf, Hp. Qed.

(** A payload loop that ends normally holds exactly [data_len + 1] bytes,
    and they are the next bytes of the line. *)
Lemma payload_loop_reads (fuel : nat) (data_len : N) :
  forall data w data' w',
    (N.of_nat (List.length data) <= data_len + 1)%N ->
    payload_loop fuel data_len data w = Some (Ret data', w') ->
    N.of_nat (List.length data') = (data_len + 1)%N /\
    exists k,
      advanced k w w' /\
      (data' ++ rx (uart w') = data ++ rx (uart w) ++ arrived (uart w) k)%list.
Proof.
  induction fuel as [|fuel IH]; intros data w data' w' Hle H.
  - simpl in H.
    destruct (N.of_nat (List.length data) <? data_len + 1)%N eqn:Hlt;
      [discriminate|].
    inversion H; subst. apply N.ltb_ge in Hlt. split; [lia|].
    exists 0%nat. split; [apply advanced_refl|].
    now rewrite arrived_0, app_nil_r.
  - destruct (N.of_nat (List.length data) <? data_len + 1)%N eqn:Hlt.
    + destruct (TC.expired w) eqn:He.
      * rewrite (payload_loop_expired _ _ _ _ Hlt He) in H. discriminate.
      * rewrite (payload_loop_pass _ _ _ _ Hlt He) in H. cbv zeta in H.
        set (n := N.to_nat (data_len + 1 - N.of_nat (List.length data))) in *.
        pose proof (uart_read_spec n (uart w)) as Hspec.
        pose proof (advanced_after_read n w) as Hadv.
        assert (Hrx2 : rx (uart (after_read n w)) = rx (snd (uart_read n (uart w))))
          by reflexivity.
        destruct (uart_read n (uart w)) as [r u'] eqn:Eread.
        simpl fst in H. simpl snd in Hrx2.
        destruct Hspec as (Hf & Hp & Ht & Hr).
        assert (Harr : forall k, arrived (uart w) (S k)
                  = (feed (uart w) (polls (uart w)) ++ arrived (uart (after_read n w)) k)%list).
        { intros k. rewrite arrived_S. f_equal. apply arrived_ext.
          - destruct Hadv as (_ & _ & Hf' & _). now rewrite Hf'.
          - destruct Hadv as (_ & _ & _ & Hp' & _). rewrite Hp'. simpl. lia. }
        destruct r as [bs|].
        -- destruct Hr as (Happ & Hbs & _).
           assert (Hlen : (List.length bs <= n)%nat)
             by (rewrite Hbs; apply firstn_le_length).
           apply N.ltb_lt in Hlt.
           destruct (IH (data ++ bs)%list (after_read n w) data' w') as (Hl & k & Hk & Heq);
             [rewrite length_app; lia | exact H |].
           split; [exact Hl|]. exists (1 + k)%nat. split.
           ++ apply (advanced_trans Hadv Hk).
           ++ rewrite Heq, Hrx2. change (1 + k)%nat with (S k). rewrite Harr.
              rewrite <- !app_assoc. f_equal.
              rewrite !app_assoc. f_equal. exact Happ.
        -- destruct Hr as (Hnil1 & Hnil2).
           destruct (IH data (after_read n w) data' w' Hle H) as (Hl & k & Hk & Heq).
           split; [exact Hl|]. exists (1 + k)%nat. split.
           ++ apply (advanced_trans Hadv Hk).
           ++ rewrite Heq, Hrx2, Hnil1. change (1 + k)%nat with (S k).
              rewrite Harr. apply app_eq_nil in Hnil2 as [-> ->].
              reflexivity.
    + rewrite (payload_loop_done _ _ _ _ Hlt) in H. inversion H; subst.
      apply N.ltb_ge in Hlt. split; [lia|].
      exists 0%nat. split; [apply advanced_refl|].
      now rewrite arrived_0, app_nil_r.
Qed.

(** The header loop only hands over a numeral. *)
Lemma header_loop_isdigit (fuel : nat) :
  forall acc w header_str w1,
    header_loop fuel acc w = Some (Ret header_str, w1) ->
    isdigit header_str = true.
Proof.
  induction fuel as [|fuel IH]; intros acc w h w1 H; [discriminate|].
  destruct (TC.expired w) eqn:He.
  - rewrite (header_loop_expired _ _ _ He) in H. discriminate.
  - rewrite (header_loop_pass _ _ _ He) in H.
    destruct (fst (uart_read 1 (uart w))) as [bs|]; [|now apply IH in H].
    destruct (decode_ascii bs) as [c|]; [|discriminate].
    destruct (isdigit c); [now apply IH in H|].
    destruct (String.eqb c colon && isdigit acc) eqn:E; [|now apply IH in H].
    inversion H; subst. now apply andb_true_iff in E as [_ E].
Qed.

(** A list of [n + 1] elements is a body of [n] and a last element. *)
Lemma split_last (A : Type) (l : list A) (n : nat) :
  List.length l = S n ->
  exists body t, l = (body ++ [t])%list /\ List.length body = n.
Proof.
  intros H. destruct (exists_last (l:=l)) as (body & t & ->).
  - destruct l; [discriminate | congruence].
  - exists body, t. split; [reflexivity|].
    rewrite length_app in H. simpl in H. lia.
Qed.

Lemma finish_netstring_body (body : list byte) (t : byte) :
  finish_netstring (body ++ [t]) =
    if Byte.eqb t comma then
      match decode_ascii body with
      | Some data_str => Ret data_str
      | None => Raise (decode_error body)
      end
    else Raise MalformedNetstring.
Proof.
  unfold finish_netstring.
  destruct (body ++ [t])%list eqn:E; [destruct body; discriminate|].
  rewrite <- E, last_last, removelast_last. reflexivity.
Qed.

End PayloadReads.

(** ** Termination *)

Section Termination.
Import Py.

Lemma header_loop_terminates (fuel : nat) :
  forall acc w,
    (0 < interval_s (timeout_checker w))%Z ->
    (ticks_left w < fuel)%nat ->
    exists r w',
      header_loop fuel acc w = Some (r, w') /\
      timeout_checker w' = timeout_checker w /\
      (ticks_left w' <= ticks_left w)%nat.
Proof.
  induction fuel as [|fuel IH]; intros acc w HI Hfuel; [lia|].
  destruct (TC.expired w) eqn:He.
  - exists (Raise TimeoutReadingNetstring), w.
    rewrite (header_loop_expired _ _ _ He). auto.
  - pose proof (ticks_left_tick w (snd (uart_read 1 (uart w))) HI He) as Ht.
    fold (after_read1 w) in Ht.
    assert (Htc : timeout_checker (after_read1 w) = timeout_checker w)
      by reflexivity.
    assert (Hrec : forall acc',
               exists r w',
                 header_loop fuel acc' (after_read1 w) = Some (r, w') /\
                 timeout_checker w' = timeout_checker w /\
                 (ticks_left w' <= ticks_left w)%nat).
    { intros acc'.
      destruct (IH acc' (after_read1 w)) as (r & w' & Hr & Htc' & Hle);
        [now rewrite Htc | lia |].
      exists r, w'. repeat split; [exact Hr | congruence | lia]. }
    assert (Hstop : forall r : outcome string,
               exists r' w',
                 Some (r, after_read1 w) = Some (r', w') /\
                 timeout_checker w' = timeout_checker w /\
                 (ticks_left w' <= ticks_left w)%nat).
    { intros r. exists r, (after_read1 w). repeat split; lia. }
    rewrite (header_loop_pass _ _ _ He).
    destruct (fst (uart_read 1 (uart w))) as [bs|]; [|apply Hrec].
    destruct (decode_ascii bs) as [c|]; [|apply Hstop].
    destruct (isdigit c); [apply Hrec|].
    destruct (String.eqb c colon && isdigit acc); [apply Hstop | apply Hrec].
Qed.

Lemma payload_loop_terminates (fuel : nat) (data_len : N) :
  forall data w,
    (0 < interval_s (timeout_checker w))%Z ->
    (ticks_left w < fuel)%nat ->
    exists r w', payload_loop fuel data_len data w = Some (r, w').
Proof.
  induction fuel as [|fuel IH]; intros data w HI Hfuel; [lia|].
  destruct (N.of_nat (List.length data) <? data_len + 1)%N eqn:Hlt.
  - destruct (TC.expired w) eqn:He.
    + rewrite (payload_loop_expired _ _ _ _ Hlt He). eauto.
    + rewrite (payload_loop_pass _ _ _ _ Hlt He). cbv zeta.
      set (n := N.to_nat (data_len + 1 - N.of_nat (List.length data))).
      pose proof (ticks_left_tick w (snd (uart_read n (uart w))) HI He) as Ht.
      fold (after_read n w) in Ht.
      assert (Htc : timeout_checker (after_read n w) = timeout_checker w)
        by reflexivity.
      destruct (fst (uart_read n (uart w))) as [bs|];
        apply IH; rewrite ?Htc; auto; lia.
  - rewrite (payload_loop_done _ _ _ _ Hlt). eauto.
Qed.

(** The payload loop raises nothing but the timeout. *)
Lemma payload_loop_raises (fuel : nat) (data_len : N) :
  forall data w e w',
    payload_loop fuel data_len data w = Some (Raise e, w') ->
    e = TimeoutReadingNetstring.
Proof.
  induction fuel as [|fuel IH]; intros data w e w' H.
  - simpl in H. destruct (_ <? _)%N; discriminate.
  - destruct (N.of_nat (List.length data) <? data_len + 1)%N eqn:Hlt.
    + destruct (TC.expired w) eqn:He.
      * rewrite (payload_loop_expired _ _ _ _ Hlt He) in H. congruence.
      * rewrite (payload_loop_pass _ _ _ _ Hlt He) in H. cbv zeta in H.
        destruct (fst (uart_read _ (uart w))); now apply IH in H.
    + rewrite (payload_loop_done _ _ _ _ Hlt) in H. discriminate.
Qed.

Lemma ascii_line_after_read1 (w : world) :
  ascii_line (uart w) -> ascii_line (uart (after_read1 w)).
Proof.
  intros [Hrx Hfeed]. unfold after_read1, set_uart. simpl.
  destruct (@uart_read_Forall _ 1 (uart w) Hrx Hfeed) as (H1 & H2 & _).
  split; assumption.
Qed.

Lemma decode_ascii_Forall (bs : list byte) :
  Forall (fun b => is_ascii_byte b = true) bs -> decode_ascii bs <> None.
Proof.
  induction 1 as [|b bs Hb _ IH]; simpl; [discriminate|].
  rewrite Hb. destruct (decode_ascii bs); congruence.
Qed.

(** On a line of ASCII bytes the header loop raises nothing but the
    timeout. *)
Lemma header_loop_raises (fuel : nat) :
  forall acc w e w',
    ascii_line (uart w) ->
    header_loop fuel acc w = Some (Raise e, w') ->
    e = TimeoutReadingNetstring.
Proof.
  induction fuel as [|fuel IH]; intros acc w e w' Hline H; [discriminate|].
  destruct (TC.expired w) eqn:He.
  - rewrite (header_loop_expired _ _ _ He) in H. congruence.
  - pose proof (@ascii_line_after_read1 w Hline) as Hline'.
    destruct Hline as [Hrx Hfeed].
    destruct (@uart_read_Forall _ 1 (uart w) Hrx Hfeed) as (_ & _ & Hbs).
    rewrite (header_loop_pass _ _ _ He) in H.
    destruct (fst (uart_read 1 (uart w))) as [bs|]; [|now apply IH in H].
    pose proof (decode_ascii_Forall Hbs) as Hdec.
    destruct (decode_ascii bs) as [c|]; [|congruence].
    destruct (isdigit c); [now apply IH in H|].
    destruct (String.eqb c colon && isdigit acc); [discriminate|].
    now apply IH in H.
Qed.

Lemma elapsed_after_read (n : nat) (w : world) :
  TC.elapsed (after_read n w) = (TC.elapsed w + interval_s (timeout_checker w))%Z.
Proof. unfold TC.elapsed, after_read, set_uart, tick, sleep. simpl. lia. Qed.

Lemma not_expired_elapsed (w : world) :
  TC.expired w = false -> (TC.elapsed w <= timeout_s (timeout_checker w))%Z.
Proof.
  unfold TC.expired, TC.elapsed. rewrite Z.gtb_ltb. intros H.
  apply Z.ltb_ge in H. exact H.
Qed.

(** The header loop never sleeps past the duration plus one interval. *)
Lemma header_loop_elapsed (fuel : nat) (bound : Z) :
  forall acc w r w',
    header_loop fuel acc w = Some (r, w') ->
    (timeout_s (timeout_checker w) + interval_s (timeout_checker w) <= bound)%Z ->
    (TC.elapsed w <= bound)%Z ->
    timeout_checker w' = timeout_checker w /\ (TC.elapsed w' <= bound)%Z.
Proof.
  induction fuel as [|fuel IH]; intros acc w r w' H HB Hw; [discriminate|].
  destruct (TC.expired w) eqn:He.
  - rewrite (header_loop_expired _ _ _ He) in H. inversion H; subst. auto.
  - pose proof (not_expired_elapsed _ He) as Hle.
    pose proof (elapsed_after_read 1 w) as Hel.
    change (after_read 1 w) with (after_read1 w) in Hel.
    assert (Hrec : forall acc', header_loop fuel acc' (after_read1 w) = Some (r, w') ->
               timeout_checker w' = timeout_checker w /\ (TC.elapsed w' <= bound)%Z).
    { intros acc' H'. apply (IH acc' (after_read1 w) r w' H'); [exact HB | lia]. }
    assert (Hstop : forall r0 : outcome string,
               Some (r0, after_read1 w) = Some (r, w') ->
               timeout_checker w' = timeout_checker w /\ (TC.elapsed w' <= bound)%Z).
    { intros r0 H'. inversion H'; subst. split; [reflexivity | lia]. }
    rewrite (header_loop_pass _ _ _ He) in H.
    destruct (fst (uart_read 1 (uart w))) as [bs|]; [|now apply Hrec in H].
    destruct (decode_ascii bs) as [c|]; [|now apply Hstop in H].
    destruct (isdigit c); [now apply Hrec in H|].
    destruct (String.eqb c colon && isdigit acc);
      [now apply Hstop in H | now apply Hrec in H].
Qed.

(** Nor does the payload loop. *)
Lemma payload_loop_elapsed (fuel : nat) (data_len : N) (bound : Z) :
  forall data w r w',
    payload_loop fuel data_len data w = Some (r, w') ->
    (timeout_s (timeout_checker w) + interval_s (timeout_checker w) <= bound)%Z ->
    (TC.elapsed w <= bound)%Z ->
    timeout_checker w' = timeout_checker w /\ (TC.elapsed w' <= bound)%Z.
Proof.
  induction fuel as [|fuel IH]; intros data w r w' H HB Hw.
  - simpl in H. destruct (_ <? _)%N; [discriminate|]. inversion H; subst. auto.
  - destruct (N.of_nat (List.length data) <? data_len + 1)%N eqn:Hlt.
    + destruct (TC.expired w) eqn:He.
      * rewrite (payload_loop_expired _ _ _ _ Hlt He) in H. inversion H; subst. auto.
      * pose proof (not_expired_elapsed _ He) as Hle.
        rewrite (payload_loop_pass _ _ _ _ Hlt He) in H. cbv zeta in H.
        set (n := N.to_nat (data_len + 1 - N.of_nat (List.length data))) in *.
        pose proof (elapsed_after_read n w) as Hel.
        destruct (fst (uart_read n (uart w))) as [bs|];
          apply IH in H; try exact HB; try lia; exact H.
    + rewrite (payload_loop_done _ _ _ _ Hlt) in H. inversion H; subst. auto.
Qed.

Lemma ticks_left_start_timer (timeout : Z) (w : world) :
  ticks_left (TC.start_timer timeout w)
  = Z.to_nat (timeout_s (timeout_checker (TC.start_timer timeout w))
              / interval_s (timeout_checker (TC.start_timer timeout w)) + 1).
Proof.
  unfold ticks_left. rewrite start_timer_elapsed.
  now rewrite Z.sub_diag, Z.sub_0_r.
Qed.

End Termination.

(** ** Validation and dispatch *)

Section ServerFacts.

Variable loads : string -> value + string.
Variable methods : list (string * handler).

(** The validator only lets mappings through, with a string under
    [method] and a list, mapping or null under [params]. *)
Lemma parse_request_shape (text : string) (request : value) :
  parse_request loads text = Ret request ->
  exists d name,
    request = VDict d /\ loads text = inl request /\
    assoc "method" d = Some (VStr name) /\
    match assoc "params" d with
    | Some params => isinstance_list_dict_none params = true
    | None => True
    end.
Proof.
  unfold parse_request. destruct (loads text) as [v|e]; [|discriminate].
  destruct v as [| b | z | f | s | l | d]; simpl; try discriminate.
  - destruct (is_substring "method" s); discriminate.
  - destruct (existsb _ l); discriminate.
  - destruct (assoc "method" d) as [m|] eqn:Hm; simpl; [|discriminate].
    destruct m; simpl; try discriminate.
    destruct (assoc "params" d) as [p|] eqn:Hp; simpl.
    + destruct (isinstance_list_dict_none p) eqn:Hi; simpl; [|discriminate].
      intros H. inversion H; subst. exists d, s. repeat split; auto.
      now rewrite Hp.
    + intros H. inversion H; subst. exists d, s. repeat split; auto.
      now rewrite Hp.
Qed.

Lemma validated_shape (request : value) :
  validated loads request ->
  exists d name, request = VDict d /\ assoc "method" d = Some (VStr name).
Proof.
  intros [text H]. destruct (parse_request_shape _ H) as (d & name & A & _ & B & _).
  now exists d, name.
Qed.

(** The validator on a mapping, case by case. *)
Lemma parse_request_dict (text : string) (d : list (string * value)) :
  loads text = inl (VDict d) ->
  parse_request loads text =
    match assoc "method" d with
    | None => Raise MethodNotSpecified
    | Some method =>
        if isinstance_str method then
          match assoc "params" d with
          | None => Ret (VDict d)
          | Some params =>
              if isinstance_list_dict_none params then Ret (VDict d)
              else Raise InvalidParamsField
          end
        else Raise MethodMustBeString
    end.
Proof.
  intros H. unfold parse_request. rewrite H. simpl.
  destruct (assoc "method" d) as [m|]; simpl; [|reflexivity].
  destruct (isinstance_str m); simpl; [|reflexivity].
  destruct (assoc "params" d) as [p|]; simpl; [|reflexivity].
  now destruct (isinstance_list_dict_none p).
Qed.

Lemma truthy_str (name : string) : truthy (VStr name) = true <-> name <> "".
Proof.
  simpl. rewrite negb_true_iff. split.
  - intros H ->. discriminate.
  - intros H. apply String.eqb_neq. exact H.
Qed.

(** Dispatch of a mapping with a non-empty method name. *)
Lemma handle_request_named (d : list (string * value)) (name : string) :
  assoc "method" d = Some (VStr name) ->
  name <> "" ->
  handle_request methods (VDict d) =
    match assoc name methods with
    | None => Raise MethodNotFound
    | Some f =>
        let params := match assoc "params" d with Some p => p | None => VNone end in
        call_with_kwargs f (if negb (truthy params) then VDict [] else params)
    end.
Proof.
  intros Hm Hne. unfold handle_request. simpl. rewrite Hm. simpl.
  apply truthy_str in Hne. simpl in Hne. rewrite Hne.
  destruct (assoc "params" d); simpl; destruct (assoc name methods); reflexivity.
Qed.

(** Dispatch of a mapping whose method is the empty string. *)
Lemma handle_request_empty_name (d : list (string * value)) :
  assoc "method" d = Some (VStr "") ->
  handle_request methods (VDict d) = Raise MethodMissing.
Proof.
  intros Hm. unfold handle_request. simpl. rewrite Hm. simpl.
  destruct (assoc "params" d); reflexivity.
Qed.

End ServerFacts.

(* ================================================================== *)
(** * Main theorems *)

(** ** Worked examples *)

(** The frames of the module header and of the unit tests. *)

Example send_empty_object :
  option_map string_of_list_byte
    (netstring ("{" ++ Sample.q "empty" ++ ":1}"))
  = Some ("11:{" ++ Sample.q "empty" ++ ":1},").
Proof. vm_compute. reflexivity. Qed.

Example receive_valid_netstring :
  result_of (receive_netstring 30 5000 (Sample.server (list_byte_of_string "1:n,")))
  = Some (Ret "n").
Proof. vm_compute. reflexivity. Qed.

Example receive_real_example :
  result_of (receive_netstring 30 5000
               (Sample.server (list_byte_of_string ("60:" ++ Sample.set_led_text ++ ","))))
  = Some (Ret Sample.set_led_text).
Proof. vm_compute. reflexivity. Qed.

(** A header that is no numeral is dropped, and the silence that follows
    ends in the timeout. *)
Example receive_invalid_header :
  result_of (receive_netstring 30 5000 (Sample.server (list_byte_of_string "b:a,")))
  = Some (Raise TimeoutReadingNetstring).
Proof. vm_compute. reflexivity. Qed.

Example receive_incomplete_frame :
  result_of (receive_netstring 30 1000 (Sample.server (list_byte_of_string "10:abc")))
  = Some (Raise TimeoutReadingNetstring).
Proof. vm_compute. reflexivity. Qed.

Example receive_missing_comma :
  result_of (receive_netstring 30 5000 (Sample.server (list_byte_of_string "3:abcd")))
  = Some (Raise MalformedNetstring).
Proof. vm_compute. reflexivity. Qed.

(** One turn of the loop on the request of the module header. *)
Example serve_set_led_color :
  option_map (fun r => string_of_list_byte (tx (uart (snd r))))
    (run_once Sample.loads Sample.dumps Sample.methods 30
       (Sample.server (Sample.frame Sample.set_led_text)))
  = Some ("37:{" ++ Sample.q "id" ++ ": 0, " ++ Sample.q "result" ++ ": {"
               ++ Sample.q "status" ++ ": true}},").
Proof. vm_compute. reflexivity. Qed.

(** ** The netstring codec *)

Lemma netstring_ascii (payload : string) :
  Py.encode_ascii payload <> None -> exists bs, netstring payload = Some bs.
Proof.
  intros H. unfold netstring.
  destruct (Py.encode_ascii payload) as [pb|] eqn:Hp; [|congruence].
  destruct (PyFacts.str_of_int_ascii (N.of_nat (List.length pb))) as [ds Hds].
  rewrite !PyFacts.encode_ascii_app, Hds, Hp. simpl. eauto.
Qed.

(** C1.  Round trip of the codec: for every ASCII payload, when the bytes
    that [send_netstring] writes for it are what the receiving line holds
    (whatever follows them), and the time budget covers one poll per header
    byte and one for the body, [receive_netstring] returns the payload. *)
Theorem netstring_round_trip (payload : string) (more : list byte)
        (timeout : Z) (fuel : nat) (sender w : world) :
  let n := String.length (Py.str_of_int (N.of_nat (String.length payload))) in
  let tc := timeout_checker (TC.start_timer timeout w) in
  Py.encode_ascii payload <> None ->
  tx (uart sender) = [] ->
  rx (uart w) = (tx (uart (snd (send_netstring payload sender))) ++ more)%list ->
  (0 <= interval_s tc)%Z ->
  ((Z.of_nat n + 1) * interval_s tc <= timeout_s tc)%Z ->
  (n + 1 <= fuel)%nat ->
  fst (send_netstring payload sender) = Ret tt /\
  exists w',
    receive_netstring fuel timeout w = Some (Ret payload, w') /\
    tx (uart w') = tx (uart w) /\
    rx (uart w') = (more ++ arrived (uart w) (n + 2))%list.
Proof.
  intros n tc Hascii Htx Hrx HI HT Hfuel.
  destruct (netstring_ascii _ Hascii) as [bs Hbs].
  unfold send_netstring in *. rewrite Hbs in *. simpl in Hrx. rewrite Htx in Hrx.
  simpl in Hrx. split; [reflexivity|].
  apply (@receive_buffered_frame payload bs more timeout fuel w Hbs Hrx);
    [|exact Hfuel].
  fold n. replace (n + 2)%nat with (S (n + 1)) by lia.
  apply budget_intro; fold tc; [exact HI|].
  unfold tc. rewrite start_timer_elapsed. fold tc. lia.
Qed.

Lemma netstring_round_trip_witness :
  result_of (receive_netstring 30 5000 (Sample.server (Sample.frame Sample.set_led_text)))
    = Some (Ret Sample.set_led_text).
Proof.
  destruct (@netstring_round_trip Sample.set_led_text [] 5000 30
              (Sample.server []) (Sample.server (Sample.frame Sample.set_led_text)))
    as (_ & w' & H & _).
  - vm_compute. discriminate.
  - reflexivity.
  - vm_compute. reflexivity.
  - vm_compute. discriminate.
  - vm_compute. discriminate.
  - vm_compute. lia.
  - rewrite H. reflexivity.
Defined.

(** C2, counterexample.  The byte 0xff is neither a digit nor a colon, and
    when it arrives during header scanning the decode fails at once: the
    ASCII decoding of the byte raises. *)
Lemma header_non_ascii_byte_fails :
  isdigit_byte xff = false /\
  Byte.eqb xff colon_byte = false /\
  TC.expired (TC.start_timer 5000 (Sample.server [xff])) = false /\
  fst (uart_read 1 (uart (TC.start_timer 5000 (Sample.server [xff])))) = Some [xff] /\
  result_of (header_loop 30 "" (TC.start_timer 5000 (Sample.server [xff])))
    = Some (Raise (UnicodeDecodeError xff 0)) /\
  result_of (receive_netstring 30 5000 (Sample.server [xff]))
    = Some (Raise (UnicodeDecodeError xff 0)).
Proof. repeat split; vm_compute; reflexivity. Qed.

(** C2, amended.  During header scanning, for every ASCII byte (below 0x80)
    that is neither a decimal digit nor a colon ending a non-empty all-digit
    accumulator -- a colon arriving while the accumulator is empty included
    -- the decode does not fail at that byte: it only discards the
    accumulator and resumes scanning from the next byte; and while nothing
    but such bytes arrives the scan can only end by the timeout. *)
Theorem header_corruption_recovers (fuel : nat) (acc : string) (w : world) (b : byte) :
  TC.expired w = false ->
  fst (uart_read 1 (uart w)) = Some [b] ->
  Py.is_ascii_byte b = true ->
  isdigit_byte b = false ->
  Byte.eqb b colon_byte && Py.isdigit acc = false ->
  header_loop (S fuel) acc w = header_loop fuel "" (after_read1 w) /\
  (corrupt_only (uart (after_read1 w)) ->
   forall fuel',
     header_loop fuel' "" (after_read1 w) = None \/
     exists w', header_loop fuel' "" (after_read1 w)
                = Some (Raise TimeoutReadingNetstring, w')).
Proof.
  intros He Hr Ha Hd Hc. split.
  - apply (@header_loop_reset fuel acc w b); assumption.
  - intros Hcorrupt fuel'. now apply header_loop_corrupt_only.
Qed.

Lemma header_corruption_recovers_witness :
  header_loop 30 "" (TC.start_timer 5000 (Sample.server (list_byte_of_string ":b:a,")))
  = header_loop 29 ""
      (after_read1 (TC.start_timer 5000 (Sample.server (list_byte_of_string ":b:a,")))) /\
  forall fuel',
    header_loop fuel' ""
      (after_read1 (TC.start_timer 5000 (Sample.server (list_byte_of_string ":b:a,"))))
    = None \/
    exists w',
      header_loop fuel' ""
        (after_read1 (TC.start_timer 5000 (Sample.server (list_byte_of_string ":b:a,"))))
      = Some (Raise TimeoutReadingNetstring, w').
Proof.
  destruct (@header_corruption_recovers 29 ""
              (TC.start_timer 5000 (Sample.server (list_byte_of_string ":b:a,"))) x3a)
    as [H1 H2].
  - reflexivity.
  - reflexivity.
  - reflexivity.
  - reflexivity.
  - reflexivity.
  - split; [exact H1|]. apply H2.
    split; [repeat constructor | intros k; constructor].
Defined.

(** C3, counterexample.  On the bytes [1:], 0xff, [,] the header declares
    length 1 and the last of the two bytes read is the comma, yet the decode
    does not return the first byte as text: the ASCII decoding raises. *)
Lemma frame_non_ascii_body_fails :
  result_of (header_loop 10 "" (TC.start_timer 5000 (Sample.server [x31; x3a; xff; x2c])))
    = Some (Ret "1") /\
  result_of (receive_netstring 10 5000 (Sample.server [x31; x3a; xff; x2c]))
    = Some (Raise (UnicodeDecodeError xff 0)).
Proof. split; vm_compute; reflexivity. Qed.

(** C3, amended.  After a valid header declaring length L, a decode that is
    not cut short by the timeout reads exactly L + 1 further bytes of the
    line; if the last of them is not the comma it fails with the "missing
    trailing comma" error; otherwise, when the first L bytes are ASCII, it
    returns exactly these L bytes decoded as text. *)
Theorem frame_body_checked (fuel : nat) (timeout : Z) (w : world)
        (header_str : string) (w1 : world) :
  header_loop fuel "" (TC.start_timer timeout w) = Some (Ret header_str, w1) ->
  exists data_len,
    Py.int_of_str header_str = Some data_len /\
    forall data w2,
      payload_loop fuel data_len [] w1 = Some (Ret data, w2) ->
      (exists k, advanced k w1 w2 /\
                 (data ++ rx (uart w2) = rx (uart w1) ++ arrived (uart w1) k)%list) /\
      exists body t,
        data = (body ++ [t])%list /\
        N.of_nat (List.length body) = data_len /\
        (t <> Py.comma ->
         receive_netstring fuel timeout w = Some (Raise MalformedNetstring, w2)) /\
        (t = Py.comma ->
         forall data_str, Py.decode_ascii body = Some data_str ->
           receive_netstring fuel timeout w = Some (Ret data_str, w2)).
Proof.
  intros Hh.
  destruct (PyFacts.int_of_str_isdigit _ (header_loop_isdigit _ _ _ Hh)) as [L HL].
  exists L. split; [exact HL|]. intros data w2 Hp.
  destruct (@payload_loop_reads fuel L [] w1 data w2) as (Hlen & k & Hk & Heq);
    [simpl; lia | exact Hp |].
  split; [exists k; split; [exact Hk | exact Heq]|].
  destruct (@split_last _ data (N.to_nat L)) as (body & t & -> & Hb); [lia|].
  exists body, t. split; [reflexivity|]. split; [lia|].
  unfold receive_netstring. rewrite Hh, HL, Hp, finish_netstring_body.
  split.
  - intros Ht. destruct (Byte.eqb t Py.comma) eqn:E; [|reflexivity].
    apply Byte.byte_dec_bl in E. contradiction.
  - intros -> data_str Hd. now rewrite Hd.
Qed.

Lemma frame_body_checked_witness :
  result_of (receive_netstring 10 5000 (Sample.server (Sample.frame "abc")))
    = Some (Ret "abc").
Proof.
  destruct (@frame_body_checked 10 5000 (Sample.server (Sample.frame "abc")) "3"
              (after_read1 (after_read1
                 (TC.start_timer 5000 (Sample.server (Sample.frame "abc"))))))
    as (data_len & HL & Hbody).
  - vm_compute. reflexivity.
  - vm_compute in HL. inversion HL; subst data_len.
    destruct (Hbody [x61; x62; x63; x2c]
                (after_read 4 (after_read1 (after_read1
                   (TC.start_timer 5000 (Sample.server (Sample.frame "abc")))))))
      as (_ & body & t & Hd & _ & _ & Hret).
    + vm_compute. reflexivity.
    + apply (app_inj_tail [x61; x62; x63] body x2c t) in Hd as [<- <-].
      rewrite (Hret eq_refl "abc" eq_refl). reflexivity.
Defined.

(** C4, counterexample.  A line that delivers the single byte 0xff never
    supplies a complete frame, and the decode does not fail with the
    timeout: it fails with the decoding error of the header byte. *)
Lemma non_ascii_source_fails_without_timeout :
  (forall fuel, ~ supplies_frame fuel 5000 (Sample.server [xff])) /\
  result_of (receive_netstring 30 5000 (Sample.server [xff]))
    = Some (Raise (UnicodeDecodeError xff 0)).
Proof.
  split; [|vm_compute; reflexivity].
  intros fuel (h & w1 & L & data & w2 & H & _).
  destruct fuel; vm_compute in H; discriminate.
Qed.

(** C4, amended.  Decode always terminates, the poll interval being
    positive: [check_timeout] raises the timeout once the elapsed time
    exceeds the configured duration and otherwise sleeps for the poll
    interval, every turn of both read loops calls it, and so, given fuel for
    more than duration / interval + 1 turns, the decode has an outcome, no
    later than the duration plus one interval after it started; for every
    source of ASCII bytes that never supplies a complete frame (a header and
    the declared number of bytes plus one) that outcome is the timeout. *)
Theorem receive_netstring_terminates (timeout : Z) (w : world) (fuel : nat) :
  let tc := timeout_checker (TC.start_timer timeout w) in
  (0 < interval_s tc)%Z ->
  (Z.to_nat (timeout_s tc / interval_s tc + 1) < fuel)%nat ->
  (forall v,
      TC.check_timeout v =
        if (TC.elapsed v >? timeout_s (timeout_checker v))%Z
        then (Raise TimeoutReadingNetstring, v)
        else (Ret tt, sleep (interval_s (timeout_checker v)) v)) /\
  (exists r w',
      receive_netstring fuel timeout w = Some (r, w') /\
      (now w' - now w <= Z.max 0 (timeout_s tc + interval_s tc))%Z) /\
  (ascii_line (uart w) ->
   ~ supplies_frame fuel timeout w ->
   exists w', receive_netstring fuel timeout w
              = Some (Raise TimeoutReadingNetstring, w')).
Proof.
  intros tc HI Hfuel. split; [reflexivity|].
  set (w0 := TC.start_timer timeout w) in *.
  assert (Hfuel0 : (ticks_left w0 < fuel)%nat)
    by (unfold w0; rewrite ticks_left_start_timer; exact Hfuel).
  destruct (@header_loop_terminates fuel "" w0 HI Hfuel0)
    as (rh & w1 & Hh & Htc & Hle).
  assert (Hpay : forall data_len,
             exists rp w2, payload_loop fuel data_len [] w1 = Some (rp, w2)).
  { intros L. apply payload_loop_terminates; [now rewrite Htc | lia]. }
  set (bound := Z.max 0 (timeout_s tc + interval_s tc)).
  assert (Hstart : TC.elapsed w0 = 0%Z).
  { unfold TC.elapsed, w0. rewrite start_timer_elapsed. lia. }
  assert (Hnow : forall w', timeout_checker w' = tc ->
             TC.elapsed w' = (now w' - now w)%Z).
  { intros w' E. unfold TC.elapsed. rewrite E. unfold tc, w0.
    now rewrite start_timer_elapsed. }
  destruct (@header_loop_elapsed fuel bound "" w0 rh w1 Hh) as [Htc1 Hel1];
    [fold tc; unfold bound; lia | rewrite Hstart; unfold bound; lia |].
  split.
  - unfold receive_netstring. fold w0. rewrite Hh.
    destruct rh as [h|e];
      [|exists (Raise e), w1; split; [reflexivity | now rewrite <- Hnow]].
    destruct (Py.int_of_str h) as [L|];
      [|eexists; exists w1; split; [reflexivity | now rewrite <- Hnow]].
    destruct (Hpay L) as (rp & w2 & Hp). rewrite Hp.
    destruct (@payload_loop_elapsed fuel L bound [] w1 rp w2 Hp) as [Htc2 Hel2];
      [rewrite Htc1; fold tc; unfold bound; lia | exact Hel1 |].
    assert (Hw2 : (now w2 - now w <= bound)%Z)
      by (rewrite <- Hnow; [exact Hel2 | rewrite Htc2, Htc1; reflexivity]).
    destruct rp; eexists; exists w2; (split; [reflexivity | exact Hw2]).
  - intros Hline Hnone. unfold receive_netstring. fold w0. rewrite Hh.
    destruct rh as [h|e].
    + destruct (PyFacts.int_of_str_isdigit _ (header_loop_isdigit _ _ _ Hh))
        as [L HL].
      rewrite HL. destruct (Hpay L) as (rp & w2 & Hp). rewrite Hp.
      destruct rp as [data|e].
      * exfalso. apply Hnone. exists h, w1, L, data, w2. auto.
      * rewrite (payload_loop_raises _ _ _ _ Hp). eauto.
    + rewrite (@header_loop_raises fuel "" w0 e w1 Hline Hh). eauto.
Qed.

Lemma receive_netstring_terminates_witness :
  exists w', receive_netstring 7 1000 (Sample.server (list_byte_of_string "10:abc"))
             = Some (Raise TimeoutReadingNetstring, w').
Proof.
  destruct (@receive_netstring_terminates 1000
              (Sample.server (list_byte_of_string "10:abc")) 7)
    as (_ & _ & H).
  - vm_compute. reflexivity.
  - vm_compute. lia.
  - apply H.
    + split; [repeat constructor | intros k; constructor].
    + intros (h & w1 & L & data & w2 & H1 & H2 & H3).
      vm_compute in H1. inversion H1; subst h w1.
      vm_compute in H2. inversion H2; subst L.
      vm_compute in H3. discriminate.
Defined.


(** ** Response envelopes *)

(** C5.  For every result value, error message and id, [create_response]
    and [create_error_response] serialise an envelope whose [id] field is the
    given id when that id is truthy and the sentinel 0 when it is absent
    ([None]) or falsy; the integer id 0 yields the sentinel 0. *)
Theorem response_id_or_default (dumps : value -> string)
        (response : value) (error_msg : string) (id : value) :
  create_response dumps response id
    = dumps (VDict [("id", id_or_default id); ("result", response)]) /\
  create_error_response dumps error_msg id
    = dumps (VDict [("id", id_or_default id);
                    ("error", VDict [("message", VStr error_msg);
                                     ("code", VInt (-1))])]) /\
  py_getitem (response_object response id) "id"
    = Ret (if truthy id then id else VInt 0) /\
  py_getitem (error_object error_msg id) "id"
    = Ret (if truthy id then id else VInt 0) /\
  id_or_default VNone = VInt 0 /\
  id_or_default (VInt 0) = VInt 0.
Proof.
  unfold create_response, create_error_response, response_object, error_object,
    id_or_default.
  destruct (truthy id); repeat split; reflexivity.
Qed.

(** ** Validation *)

(** C6, counterexample.  The text [1] is parseable and its value has no
    [method] key, yet the validator does not fail with the "method not
    specified" error: the membership test itself raises a [TypeError]. *)
Lemma parse_request_non_mapping :
  Sample.loads "1" = inl (VInt 1) /\
  parse_request Sample.loads "1"
    = Raise (TypeError "argument of type 'int' is not iterable") /\
  parse_request Sample.loads "1" <> Raise MethodNotSpecified.
Proof. repeat split; try reflexivity. discriminate. Qed.

(** C6, amended.  For every payload text: the validator fails with the
    parse error when the text is not parseable; when the text parses to a
    mapping, it fails with "method not specified" when the mapping has no
    [method] key, with "method must be a string" when the method value is
    not a string, with "invalid params field" when a present [params] value
    is neither a list, a mapping nor null, and in all other cases it returns
    the parsed mapping itself, so the [id] field is carried through
    unexamined.  A parsed value that is no mapping is never returned. *)
Theorem parse_request_cases (loads : string -> value + string) (text : string) :
  (forall e, loads text = inr e ->
     parse_request loads text = Raise (InvalidRequest e)) /\
  (forall d, loads text = inl (VDict d) ->
     (assoc "method" d = None ->
        parse_request loads text = Raise MethodNotSpecified) /\
     (forall method, assoc "method" d = Some method ->
        isinstance_str method = false ->
        parse_request loads text = Raise MethodMustBeString) /\
     (forall method params, assoc "method" d = Some method ->
        isinstance_str method = true ->
        assoc "params" d = Some params ->
        isinstance_list_dict_none params = false ->
        parse_request loads text = Raise InvalidParamsField) /\
     (forall method, assoc "method" d = Some method ->
        isinstance_str method = true ->
        match assoc "params" d with
        | Some params => isinstance_list_dict_none params = true
        | None => True
        end ->
        parse_request loads text = Ret (VDict d) /\
        py_get (VDict d) "id" VNone
          = Ret (match assoc "id" d with Some id => id | None => VNone end))) /\
  (forall request, parse_request loads text = Ret request ->
     exists d, request = VDict d /\ loads text = inl request).
Proof.
  split; [|split].
  - intros e H. unfold parse_request. now rewrite H.
  - intros d H. rewrite (parse_request_dict _ _ H).
    split; [|split; [|split]].
    + intros ->. reflexivity.
    + intros m -> ->. reflexivity.
    + intros m p -> -> -> ->. reflexivity.
    + intros m -> -> Hp. split.
      * destruct (assoc "params" d); [rewrite Hp|]; reflexivity.
      * simpl. now destruct (assoc "id" d).
  - intros request H.
    destruct (parse_request_shape _ _ H) as (d & name & Hd & Hl & _).
    now exists d.
Qed.

Lemma parse_request_cases_witness :
  parse_request Sample.loads Sample.set_led_text = Ret Sample.set_led_request.
Proof.
  destruct (parse_request_cases Sample.loads Sample.set_led_text) as (_ & H & _).
  destruct (H _ eq_refl) as (_ & _ & _ & H4).
  exact (proj1 (H4 (VStr "set_led_color") eq_refl eq_refl eq_refl)).
Defined.

(** ** Dispatch *)

(** C7, counterexample.  The request [{"method":""}] passes the validator
    and its method is no key of the table, yet dispatch fails with "method
    is missing", not with "method is not found". *)
Lemma empty_method_is_missing :
  parse_request Sample.loads Sample.empty_method_text
    = Ret Sample.empty_method_request /\
  py_get Sample.empty_method_request "method" VNone = Ret (VStr "") /\
  assoc "" Sample.methods = None /\
  handle_request Sample.methods Sample.empty_method_request = Raise MethodMissing.
Proof. repeat split; reflexivity. Qed.

(** C7, amended.  For every validated request whose method string is not
    empty and is no key of the method table, dispatch fails with "method is
    not found"; no handler of the table is invoked, the outcome being the
    same for every table that lacks the name. *)
Theorem unknown_method_not_found (loads : string -> value + string)
        (methods : list (string * handler)) (request : value) (name : string) :
  validated loads request ->
  py_get request "method" VNone = Ret (VStr name) ->
  name <> "" ->
  assoc name methods = None ->
  handle_request methods request = Raise MethodNotFound.
Proof.
  intros Hv Hm Hne Hnone.
  destruct (validated_shape Hv) as (d & name' & -> & Hd).
  simpl in Hm. rewrite Hd in Hm. inversion Hm; subst name'.
  now rewrite (handle_request_named methods d Hd Hne), Hnone.
Qed.

Lemma unknown_method_not_found_witness :
  handle_request Sample.methods Sample.nonsense_request = Raise MethodNotFound.
Proof.
  apply (@unknown_method_not_found Sample.loads Sample.methods
           Sample.nonsense_request "nonsense_func").
  - exists Sample.nonsense_text. reflexivity.
  - reflexivity.
  - discriminate.
  - reflexivity.
Defined.

(** C8, counterexample.  With a handler registered under the empty name,
    the validated request [{"method":""}] names a registered method, yet
    dispatch fails with "method is missing" and returns no handler result. *)
Lemma empty_registered_method_is_missing :
  parse_request Sample.loads Sample.empty_method_text
    = Ret Sample.empty_method_request /\
  assoc "" Sample.methods_with_empty_name = Some Sample.set_led_color /\
  py_get Sample.empty_method_request "params" VNone = Ret VNone /\
  handle_request Sample.methods_with_empty_name Sample.empty_method_request
    = Raise MethodMissing.
Proof. repeat split; reflexivity. Qed.

(** C8, amended.  For every validated request whose method is a non-empty
    registered name and whose params is a mapping, dispatch invokes the
    registered handler with the entries of the mapping as named arguments
    (absent, null or empty params giving an empty parameter set) and returns
    the handler's result; a failure raised by the handler propagates as a
    handler error carrying the handler's message. *)
Theorem registered_method_dispatched (loads : string -> value + string)
        (methods : list (string * handler)) (request : value)
        (name : string) (f : handler)
        (params : value) (kwargs : list (string * value)) :
  validated loads request ->
  py_get request "method" VNone = Ret (VStr name) ->
  name <> "" ->
  assoc name methods = Some f ->
  py_get request "params" VNone = Ret params ->
  parameter_set params = Some kwargs ->
  handle_request methods request =
    match f kwargs with
    | inl result => Ret result
    | inr msg => Raise (HandlerError msg)
    end.
Proof.
  intros Hv Hm Hne Hf Hp Hk.
  destruct (validated_shape Hv) as (d & name' & -> & Hd).
  simpl in Hm. rewrite Hd in Hm. inversion Hm; subst name'.
  rewrite (handle_request_named methods d Hd Hne), Hf. cbv zeta.
  simpl in Hp.
  assert (Hpar : match assoc "params" d with Some p => p | None => VNone end = params)
    by (destruct (assoc "params" d); now inversion Hp).
  rewrite Hpar.
  destruct params as [| | | | | l | kw]; try discriminate.
  - inversion Hk; subst. reflexivity.
  - destruct l; [|discriminate]. inversion Hk; subst. reflexivity.
  - inversion Hk; subst. simpl. destruct kwargs; reflexivity.
Qed.

Lemma registered_method_dispatched_witness :
  handle_request Sample.methods Sample.set_led_request
    = Ret (VDict [("status", VBool true)]).
Proof.
  apply (@registered_method_dispatched Sample.loads Sample.methods
           Sample.set_led_request "set_led_color" Sample.set_led_color
           (VDict [("rgb", VList [VInt 255; VInt 0; VInt 0])])
           [("rgb", VList [VInt 255; VInt 0; VInt 0])]).
  - exists Sample.set_led_text. reflexivity.
  - reflexivity.
  - discriminate.
  - reflexivity.
  - reflexivity.
  - reflexivity.
Defined.

(** C10, counterexample.  The validated request
    [{"method":"nonsense_func","params":[1]}] has a non-empty list under
    [params], and dispatch fails with "method is not found". *)
Lemma list_params_unknown_method :
  parse_request Sample.loads Sample.list_params_text
    = Ret Sample.list_params_request /\
  py_get Sample.list_params_request "params" VNone = Ret (VList [VInt 1]) /\
  handle_request Sample.methods Sample.list_params_request = Raise MethodNotFound.
Proof. repeat split; reflexivity. Qed.

(** C10, amended.  For every validated request whose params value is a
    non-empty list, dispatch fails and no handler returns or raises: the
    failure is never a handler error, and when the method is a non-empty
    registered name it is the [TypeError] of applying the list as named
    arguments (the interpreter's own error, which names the callee), which
    is neither "method is not found" nor a handler error.
    So no list-valued params reaches a handler. *)
Theorem list_params_never_dispatched (loads : string -> value + string)
        (methods : list (string * handler)) (request : value)
        (x : value) (l : list value) :
  validated loads request ->
  py_get request "params" VNone = Ret (VList (x :: l)) ->
  exists e,
    handle_request methods request = Raise e /\
    (forall msg, e <> HandlerError msg) /\
    (forall name f,
        py_get request "method" VNone = Ret (VStr name) ->
        name <> "" ->
        assoc name methods = Some f ->
        e = TypeError (callee f ++ " argument after ** must be a mapping, not list")).
Proof.
  intros Hv Hp.
  destruct (validated_shape Hv) as (d & name & -> & Hd).
  simpl in Hp.
  assert (Hpar : assoc "params" d = Some (VList (x :: l))).
  { destruct (assoc "params" d); inversion Hp; reflexivity. }
  destruct (String.eqb name "") eqn:Hname.
  - apply String.eqb_eq in Hname. subst name.
    exists MethodMissing. rewrite (handle_request_empty_name methods d Hd).
    repeat split; try discriminate.
    intros name f Hm Hne. simpl in Hm. rewrite Hd in Hm. congruence.
  - apply String.eqb_neq in Hname.
    rewrite (handle_request_named methods d Hd Hname), Hpar. cbv zeta.
    destruct (assoc name methods) as [f|] eqn:Hf.
    + eexists. split; [reflexivity|]. split; [discriminate|].
      intros name' f' Hm Hne Hf'. simpl in Hm. rewrite Hd in Hm.
      inversion Hm; subst. rewrite Hf in Hf'. inversion Hf'; subst.
      reflexivity.
    + exists MethodNotFound. repeat split; try discriminate.
      intros name' f Hm Hne Hf'. simpl in Hm. rewrite Hd in Hm.
      inversion Hm; subst. congruence.
Qed.

Lemma list_params_never_dispatched_witness :
  exists e,
    handle_request Sample.methods Sample.led_list_request = Raise e /\
    (forall msg, e <> HandlerError msg) /\
    (forall name f,
        py_get Sample.led_list_request "method" VNone = Ret (VStr name) ->
        name <> "" ->
        assoc name Sample.methods = Some f ->
        e = TypeError (callee f ++ " argument after ** must be a mapping, not list")).
Proof.
  apply (@list_params_never_dispatched Sample.loads Sample.methods
           Sample.led_list_request (VInt 255) [VInt 0; VInt 0]).
  - exists Sample.led_list_text. reflexivity.
  - reflexivity.
Defined.

(** ** The service loop *)




(* ================================================================== *)
(** * Further properties *)

Unset Implicit Arguments.

(** ** The timer *)

(** X1.  A timeout of zero does not mean "do not wait": [start_timer] takes
    it for "no new duration", so the decode runs with the duration the
    checker had before. *)
Theorem receive_zero_timeout_keeps_duration (fuel : nat) (w : world) :
  receive_netstring fuel 0 w
  = receive_netstring fuel (timeout_s (timeout_checker w)) w.
Proof.
  unfold receive_netstring.
  replace (TC.start_timer 0 w)
    with (TC.start_timer (timeout_s (timeout_checker w)) w); [reflexivity|].
  unfold TC.start_timer. simpl.
  destruct (timeout_s (timeout_checker w) =? 0)%Z; reflexivity.
Qed.

(** X2.  With a negative timeout the decode fails with the timeout at its
    first check: no byte is read from the line and the clock does not
    move. *)
Theorem receive_negative_timeout (fuel : nat) (timeout : Z) (w : world) :
  (timeout < 0)%Z ->
  receive_netstring (S fuel) timeout w
  = Some (Raise TimeoutReadingNetstring, TC.start_timer timeout w) /\
  uart (TC.start_timer timeout w) = uart w /\
  now (TC.start_timer timeout w) = now w.
Proof.
  intros Hneg. split; [|split; reflexivity].
  unfold receive_netstring.
  rewrite header_loop_expired; [reflexivity|].
  unfold TC.expired. rewrite start_timer_elapsed.
  assert (Hz : (timeout =? 0)%Z = false) by (apply Z.eqb_neq; lia).
  unfold TC.start_timer. rewrite Hz. simpl. rewrite Z.gtb_ltb.
  apply Z.ltb_lt. lia.
Qed.

Lemma receive_negative_timeout_witness :
  result_of (receive_netstring 1 (-1) (Sample.server (Sample.frame "n")))
  = Some (Raise TimeoutReadingNetstring).
Proof.
  rewrite (proj1 (receive_negative_timeout 0 (-1)
                    (Sample.server (Sample.frame "n")) ltac:(lia))).
  reflexivity.
Defined.

(** ** What a decode leaves behind *)

Lemma pending_0 (u : UART) : pending u 0 = rx u.
Proof. unfold pending. now rewrite arrived_0, app_nil_r. Qed.

(** One read takes a prefix of what the line holds after the poll. *)
Lemma after_read_pending (n : nat) (w : world) (k : nat) :
  (match fst (uart_read n (uart w)) with Some bs => bs | None => [] end
     ++ pending (uart (after_read n w)) k)%list
  = pending (uart w) (S k).
Proof.
  pose proof (uart_read_spec n (uart w)) as Hspec.
  pose proof (advanced_after_read n w) as (_ & _ & Hf & Hp & _).
  assert (Hrx : rx (uart (after_read n w)) = rx (snd (uart_read n (uart w))))
    by reflexivity.
  assert (Harr : arrived (uart w) (S k)
            = (feed (uart w) (polls (uart w)) ++ arrived (uart (after_read n w)) k)%list).
  { rewrite arrived_S. f_equal. apply arrived_ext.
    - now rewrite Hf.
    - rewrite Hp. simpl. lia. }
  destruct (uart_read n (uart w)) as [r u'] eqn:E.
  destruct Hspec as (_ & _ & _ & Hr). simpl fst. simpl snd in Hrx.
  unfold pending. rewrite Hrx, Harr.
  destruct r as [bs|].
  - destruct Hr as (Happ & _). rewrite !app_assoc. f_equal. exact Happ.
  - destruct Hr as (Hnil & Hall). rewrite Hnil. simpl.
    apply app_eq_nil in Hall as [-> ->]. reflexivity.
Qed.

Lemma read_length (n : nat) (u : UART) (bs : list byte) :
  fst (uart_read n u) = Some bs -> (List.length bs <= n)%nat.
Proof.
  pose proof (uart_read_spec n u) as H.
  destruct (uart_read n u) as [r u']. simpl. intros ->.
  destruct H as (_ & _ & _ & _ & Hbs & _). rewrite Hbs. apply firstn_le_length.
Qed.

(** One turn of the header loop either ends it or hands over to the next. *)
Lemma header_loop_turn (fuel : nat) (acc : string) (w : world)
      (r : outcome string) (w' : world) :
  TC.expired w = false ->
  header_loop (S fuel) acc w = Some (r, w') ->
  w' = after_read1 w \/
  exists acc', header_loop fuel acc' (after_read1 w) = Some (r, w').
Proof.
  intros He H. rewrite (header_loop_pass _ _ _ He) in H.
  destruct (fst (uart_read 1 (uart w))) as [bs|]; [|eauto].
  destruct (Py.decode_ascii bs) as [c|]; [|left; congruence].
  destruct (Py.isdigit c); [eauto|].
  destruct (String.eqb c Py.colon && Py.isdigit acc); [left; congruence | eauto].
Qed.

(** And so does one turn of the payload loop. *)
Lemma payload_loop_turn (fuel : nat) (data_len : N) (data : list byte) (w : world)
      (r : outcome (list byte)) (w' : world) :
  (N.of_nat (List.length data) <? data_len + 1)%N = true ->
  TC.expired w = false ->
  payload_loop (S fuel) data_len data w = Some (r, w') ->
  exists data',
    payload_loop fuel data_len data'
      (after_read (N.to_nat (data_len + 1 - N.of_nat (List.length data))) w)
    = Some (r, w').
Proof.
  intros Hlt He H. rewrite (payload_loop_pass _ _ _ _ Hlt He) in H. cbv zeta in H.
  destruct (fst (uart_read _ (uart w))); eauto.
Qed.

(** The footprint of the header loop, whatever its outcome: [k] polls, [k]
    sleeps, and a prefix of the incoming bytes taken off the line. *)
Lemma header_loop_footprint (fuel : nat) :
  forall acc w r w',
    header_loop fuel acc w = Some (r, w') ->
    exists k consumed,
      (k <= fuel)%nat /\ advanced k w w' /\
      (consumed ++ rx (uart w'))%list = pending (uart w) k.
Proof.
  induction fuel as [|fuel IH]; intros acc w r w' H; [discriminate|].
  destruct (TC.expired w) eqn:He.
  - rewrite (header_loop_expired _ _ _ He) in H. inversion H; subst.
    exists 0%nat, []. split; [lia|]. split; [apply advanced_refl|].
    now rewrite pending_0.
  - pose proof (after_read_pending 1 w) as Hpend.
    change (after_read 1 w) with (after_read1 w) in Hpend.
    destruct (header_loop_turn _ _ _ _ _ He H) as [-> | [acc' H']].
    + exists 1%nat, (match fst (uart_read 1 (uart w)) with Some bs => bs | None => [] end).
      split; [lia|]. split; [apply advanced_after_read1|].
      rewrite <- (Hpend 0%nat), pending_0. reflexivity.
    + destruct (IH _ _ _ _ H') as (k & consumed & Hk & Hadv & Hc).
      exists (1 + k)%nat,
        (match fst (uart_read 1 (uart w)) with Some bs => bs | None => [] end
           ++ consumed)%list.
      split; [lia|]. split; [apply (advanced_trans (advanced_after_read1 w) Hadv)|].
      rewrite <- app_assoc, Hc. apply Hpend.
Qed.

Lemma payload_loop_footprint (fuel : nat) (data_len : N) :
  forall data w r w',
    payload_loop fuel data_len data w = Some (r, w') ->
    exists k consumed,
      (k <= fuel)%nat /\ advanced k w w' /\
      (consumed ++ rx (uart w'))%list = pending (uart w) k.
Proof.
  induction fuel as [|fuel IH]; intros data w r w' H.
  - simpl in H. destruct (_ <? _)%N; [discriminate|]. inversion H; subst.
    exists 0%nat, []. split; [lia|]. split; [apply advanced_refl|].
    now rewrite pending_0.
  - destruct (N.of_nat (List.length data) <? data_len + 1)%N eqn:Hlt.
    + destruct (TC.expired w) eqn:He.
      * rewrite (payload_loop_expired _ _ _ _ Hlt He) in H. inversion H; subst.
        exists 0%nat, []. split; [lia|]. split; [apply advanced_refl|].
        now rewrite pending_0.
      * destruct (payload_loop_turn _ _ _ _ _ _ Hlt He H) as [data' H'].
        set (n := N.to_nat (data_len + 1 - N.of_nat (List.length data))) in *.
        destruct (IH _ _ _ _ H') as (k & consumed & Hk & Hadv & Hc).
        exists (1 + k)%nat,
          (match fst (uart_read n (uart w)) with Some bs => bs | None => [] end
             ++ consumed)%list.
        split; [lia|]. split; [apply (advanced_trans (advanced_after_read n w) Hadv)|].
        rewrite <- app_assoc, Hc. apply after_read_pending.
    + rewrite (payload_loop_done _ _ _ _ Hlt) in H. inversion H; subst.
      exists 0%nat, []. split; [lia|]. split; [apply advanced_refl|].
      now rewrite pending_0.
Qed.

Lemma pending_advanced (j k : nat) (w w' : world) (consumed : list byte) :
  advanced j w w' ->
  (consumed ++ rx (uart w'))%list = pending (uart w) j ->
  (consumed ++ pending (uart w') k)%list = pending (uart w) (j + k).
Proof.
  intros (_ & _ & Hf & Hp & _) Hc. unfold pending in *.
  rewrite app_assoc, Hc. unfold arrived. rewrite Hf, Hp.
  rewrite seq_app, map_app, concat_app, app_assoc. reflexivity.
Qed.

Lemma receive_reads_only (fuel : nat) (timeout : Z) (w : world)
      (r : outcome string) (w' : world) :
  receive_netstring fuel timeout w = Some (r, w') ->
  exists k consumed,
    (k <= 2 * fuel)%nat /\
    tx (uart w') = tx (uart w) /\
    feed (uart w') = feed (uart w) /\
    polls (uart w') = (polls (uart w) + k)%nat /\
    now w' = (now w + Z.of_nat k * interval_s (timeout_checker w))%Z /\
    timeout_checker w' = timeout_checker (TC.start_timer timeout w) /\
    (consumed ++ rx (uart w'))%list = pending (uart w) k.
Proof.
  unfold receive_netstring. intros H.
  set (w0 := TC.start_timer timeout w) in *.
  assert (Hfin : forall k consumed w1,
             (k <= 2 * fuel)%nat -> advanced k w0 w1 ->
             (consumed ++ rx (uart w1))%list = pending (uart w0) k ->
             exists k consumed,
               (k <= 2 * fuel)%nat /\
               tx (uart w1) = tx (uart w) /\
               feed (uart w1) = feed (uart w) /\
               polls (uart w1) = (polls (uart w) + k)%nat /\
               now w1 = (now w + Z.of_nat k * interval_s (timeout_checker w))%Z /\
               timeout_checker w1 = timeout_checker w0 /\
               (consumed ++ rx (uart w1))%list = pending (uart w) k).
  { intros k consumed w1 Hk (Htc & Hnow & Hf & Hp & Ht) Hc.
    exists k, consumed. rewrite Hnow. unfold w0 at 2.
    rewrite start_timer_interval. repeat split; auto. }
  destruct (header_loop fuel "" w0) as [[[h|e] w1]|] eqn:Hh; [| |discriminate].
  - destruct (header_loop_footprint _ _ _ _ _ Hh) as (k1 & c1 & Hk1 & Hadv1 & Hc1).
    destruct (Py.int_of_str h) as [L|].
    + destruct (payload_loop fuel L [] w1) as [[rp w2]|] eqn:Hp; [|discriminate].
      destruct (payload_loop_footprint _ _ _ _ _ _ Hp) as (k2 & c2 & Hk2 & Hadv2 & Hc2).
      assert (Hw : w' = w2) by (destruct rp; congruence). subst w'.
      apply (Hfin (k1 + k2)%nat (c1 ++ c2)%list);
        [lia | apply (advanced_trans Hadv1 Hadv2) |].
      rewrite <- app_assoc, Hc2. apply (pending_advanced _ _ _ _ _ Hadv1 Hc1).
    + inversion H; subst. apply (Hfin k1 c1); [lia | exact Hadv1 | exact Hc1].
  - inversion H; subst.
    destruct (header_loop_footprint _ _ _ _ _ Hh) as (k1 & c1 & Hk1 & Hadv1 & Hc1).
    apply (Hfin k1 c1); [lia | exact Hadv1 | exact Hc1].
Qed.

(** X3.  Whatever its outcome, a decode only reads: it writes nothing to
    the line, it polls the line once for each interval it sleeps, and what
    it leaves on the line is what came in less a prefix, the bytes it
    took. *)
Theorem receive_footprint (fuel : nat) (timeout : Z) (w : world)
        (r : outcome string) (w' : world) :
  receive_netstring fuel timeout w = Some (r, w') ->
  exists k consumed,
    (k <= 2 * fuel)%nat /\
    tx (uart w') = tx (uart w) /\
    feed (uart w') = feed (uart w) /\
    polls (uart w') = (polls (uart w) + k)%nat /\
    now w' = (now w + Z.of_nat k * interval_s (timeout_checker w))%Z /\
    timeout_checker w' = timeout_checker (TC.start_timer timeout w) /\
    (consumed ++ rx (uart w'))%list = pending (uart w) k.
Proof. apply receive_reads_only. Qed.

Lemma receive_footprint_witness :
  tx (uart (after_read 2 (after_read1 (after_read1
              (TC.start_timer 5000 (Sample.server (Sample.frame "n")))))))
  = tx (uart (Sample.server (Sample.frame "n"))).
Proof.
  destruct (receive_footprint 10 5000 (Sample.server (Sample.frame "n")) (Ret "n")
              (after_read 2 (after_read1 (after_read1
                 (TC.start_timer 5000 (Sample.server (Sample.frame "n")))))))
    as (k & consumed & _ & H & _).
  - vm_compute. reflexivity.
  - exact H.
Defined.

(** ** Waiting for data *)

Lemma pending_poll (u : UART) (k : nat) :
  pending (uart_poll u) k = pending u (S k).
Proof.
  unfold pending. rewrite arrived_S. simpl. now rewrite app_assoc.
Qed.

(** X4.  [blocking_until_data_available] returns at the first poll that
    finds the buffer non-empty: after [k] empty polls it has slept [k]
    times 0.2 s, and it hands over everything that came in, without taking
    a byte and without touching the timer. *)
Theorem blocking_returns_at_first_data (k : nat) :
  forall (fuel : nat) (w : world),
    (forall j, (j < k)%nat -> pending (uart w) (S j) = []) ->
    pending (uart w) (S k) <> [] ->
    (k < fuel)%nat ->
    blocking_until_data_available fuel w
    = Some (mkWorld (now w + 200 * Z.of_nat k)
              (mkUART (feed (uart w)) (polls (uart w) + S k)
                 (pending (uart w) (S k)) (tx (uart w)))
              (timeout_checker w)).
Proof.
  induction k as [|k IH]; intros fuel w Hempty Hdata Hfuel;
    (destruct fuel as [|fuel]; [lia|]).
  - cbn [blocking_until_data_available uart_any].
    fold (pending (uart_poll (uart w)) 0) in *.
    assert (Hrx : rx (uart_poll (uart w)) = pending (uart w) 1)
      by (rewrite <- pending_poll; now rewrite pending_0).
    rewrite Hrx. destruct (pending (uart w) 1) as [|b l] eqn:E; [congruence|].
    simpl. unfold set_uart, uart_poll. simpl. do 2 f_equal; [lia|].
    f_equal; [lia|]. exact Hrx.
  - cbn [blocking_until_data_available uart_any].
    assert (Hrx : rx (uart_poll (uart w)) = pending (uart w) 1)
      by (rewrite <- pending_poll; now rewrite pending_0).
    rewrite Hrx, (Hempty 0%nat ltac:(lia)). simpl.
    rewrite IH; [| | |lia].
    + unfold set_uart, sleep.
      cbn [now uart timeout_checker feed polls rx tx uart_poll].
      do 2 f_equal; [lia|]. f_equal; [lia|]. apply pending_poll.
    + intros j Hj. simpl. rewrite pending_poll. apply Hempty. lia.
    + simpl. rewrite pending_poll. exact Hdata.
Qed.

Lemma blocking_returns_at_first_data_witness :
  option_map now
    (blocking_until_data_available 5
       (ESP32_init (chunked_line [[]; []; Sample.frame "n"]) 0))
  = Some 400%Z.
Proof.
  rewrite (blocking_returns_at_first_data 2 5
             (ESP32_init (chunked_line [[]; []; Sample.frame "n"]) 0)).
  - reflexivity.
  - intros j Hj. destruct j as [|[|j]]; [reflexivity | reflexivity | lia].
  - vm_compute. discriminate.
  - lia.
Defined.

Lemma silent_poll (u : UART) : silent u -> silent (uart_poll u).
Proof.
  intros [Hrx Hfeed]. split; [|exact Hfeed].
  simpl. now rewrite Hrx, Hfeed.
Qed.

Lemma blocking_silent (fuel : nat) :
  forall w, silent (uart w) -> blocking_until_data_available fuel w = None.
Proof.
  induction fuel as [|fuel IH]; intros w Hs; [reflexivity|].
  cbn [blocking_until_data_available uart_any].
  pose proof (silent_poll _ Hs) as Hs'. destruct Hs' as [Hrx Hfeed].
  rewrite Hrx. simpl. apply IH. split; [exact Hrx | exact Hfeed].
Qed.

(** X5.  The wait for data has no timeout: on a line that stays silent it
    never returns, and the service loop neither sends anything nor ends,
    however much fuel it is given. *)
Theorem silent_line_waits_forever
        (loads : string -> value + string) (dumps : value -> string)
        (methods : list (string * handler)) (w : world) :
  silent (uart w) ->
  forall fuel turns,
    blocking_until_data_available fuel w = None /\
    run_once loads dumps methods fuel w = None /\
    run loads dumps methods (S turns) fuel w = None.
Proof.
  intros Hs fuel turns. pose proof (blocking_silent fuel w Hs) as Hb.
  assert (Hone : run_once loads dumps methods fuel w = None).
  { unfold run_once, run_try. now rewrite Hb. }
  repeat split; auto. simpl. now rewrite Hone.
Qed.

Lemma silent_line_waits_forever_witness :
  run Sample.loads Sample.dumps Sample.methods 3 50 (Sample.server []) = None.
Proof.
  apply (silent_line_waits_forever Sample.loads Sample.dumps Sample.methods
           (Sample.server [])).
  split; [reflexivity | intros k; reflexivity].
Defined.

(** ** Frames in a stream *)

Section Streams.
Import Py.

Lemma arrived_app (u : UART) (j k : nat) (w' : world) :
  feed (uart w') = feed u -> polls (uart w') = (polls u + j)%nat ->
  arrived u (j + k) = (arrived u j ++ arrived (uart w') k)%list.
Proof.
  intros Hf Hp. unfold arrived.
  now rewrite seq_app, map_app, concat_app, Hf, Hp.
Qed.

(** Bytes that are no digits leave the accumulator empty. *)
Lemma header_loop_garbage (g : list byte) :
  forall rest fuel w,
    Forall (fun b => corrupt_byte b = true) g ->
    rx (uart w) = (g ++ rest)%list ->
    budget (List.length g) w ->
    exists w',
      header_loop (List.length g + fuel) "" w = header_loop fuel "" w' /\
      advanced (List.length g) w w' /\
      rx (uart w') = (rest ++ arrived (uart w) (List.length g))%list.
Proof.
  induction g as [|b g IH]; intros rest fuel w Hg Hrx Hb.
  - exists w. simpl. rewrite arrived_0, app_nil_r.
    repeat split; auto. apply advanced_refl.
  - inversion Hg as [|? ? Hcb Hg']; subst.
    unfold corrupt_byte in Hcb. apply andb_true_iff in Hcb as [Ha Hd].
    apply negb_true_iff in Hd. simpl in Hrx.
    destruct (@after_read1_head w b (g ++ rest) Hrx) as [Hr Hrx'].
    change (List.length (b :: g) + fuel)%nat with (S (List.length g + fuel)).
    rewrite (@header_loop_reset (List.length g + fuel) "" w b
               (@budget_not_expired (List.length g) w Hb) Hr Ha Hd)
      by (simpl; apply andb_false_r).
    rewrite <- app_assoc in Hrx'.
    destruct (IH _ fuel (after_read1 w) Hg' Hrx' (@budget_after_read1 _ _ Hb))
      as (w' & Heq & Hadv & Hrx'').
    pose proof (advanced_after_read1 w) as Hadv1.
    exists w'. split; [exact Heq|]. split.
    + apply (@advanced_trans 1 (List.length g) w (after_read1 w) w' Hadv1 Hadv).
    + rewrite Hrx'', <- app_assoc. f_equal.
      destruct Hadv1 as (_ & _ & Hf & Hp & _).
      change (List.length (b :: g)) with (1 + List.length g)%nat.
      rewrite (arrived_app (uart w) 1 (List.length g) (after_read1 w) Hf Hp).
      f_equal. unfold arrived. simpl. now rewrite app_nil_r.
Qed.

(** A numeral and the colon after it end the header loop with the numeral. *)
Lemma header_loop_numeral (hs : string) (ds rest : list byte) (fuel : nat) (w : world) :
  isdigit hs = true ->
  encode_ascii hs = Some ds ->
  rx (uart w) = (ds ++ colon_byte :: rest)%list ->
  budget (String.length hs + 1) w ->
  exists w1,
    header_loop (String.length hs + S fuel) "" w = Some (Ret hs, w1) /\
    advanced (String.length hs + 1) w w1 /\
    rx (uart w1) = (rest ++ arrived (uart w) (String.length hs + 1))%list.
Proof.
  intros Hd He Hrx Hb.
  assert (Hall : all_digits hs = true) by (destruct hs; [discriminate | exact Hd]).
  destruct (@header_loop_digits hs ds "" (colon_byte :: rest) (S fuel) w Hall He Hrx
              (@budget_weaken (String.length hs + 1) (String.length hs) w ltac:(lia) Hb))
    as (w0 & Heq & Hadv & Hrx0).
  simpl append in Heq. rewrite Heq.
  assert (Hb0 : budget 1 w0) by (apply (@budget_advanced (String.length hs) 1 w w0 Hb Hadv)).
  simpl in Hrx0.
  rewrite (@header_loop_colon fuel hs w0 _ (@budget_not_expired 0 w0 Hb0) Hrx0 Hd).
  exists (after_read1 w0). split; [reflexivity|].
  pose proof (advanced_after_read1 w0) as Hadv1. split.
  - apply (@advanced_trans _ _ _ _ _ Hadv Hadv1).
  - destruct (@after_read1_head w0 _ _ Hrx0) as [_ Hrx1].
    rewrite Hrx1, <- app_assoc. f_equal.
    destruct Hadv as (_ & _ & Hf & Hp & _).
    rewrite (arrived_app (uart w) (String.length hs) 1 w0 Hf Hp).
    f_equal. unfold arrived. simpl. now rewrite app_nil_r.
Qed.

(** Garbage, a numeral, a colon, a body of the announced length and a
    comma: the decode returns the body. *)
Lemma receive_frame_general (g : list byte) (hs : string) (ds pb more : list byte)
      (payload : string) (timeout : Z) (fuel : nat) (w : world) :
  Forall (fun b => corrupt_byte b = true) g ->
  isdigit hs = true ->
  encode_ascii hs = Some ds ->
  int_of_str hs = Some (N.of_nat (List.length pb)) ->
  decode_ascii pb = Some payload ->
  rx (uart w) = (g ++ ds ++ colon_byte :: pb ++ [comma] ++ more)%list ->
  budget (List.length g + String.length hs + 2) (TC.start_timer timeout w) ->
  (List.length g + String.length hs + 1 <= fuel)%nat ->
  exists w',
    receive_netstring fuel timeout w = Some (Ret payload, w') /\
    advanced (List.length g + String.length hs + 2) (TC.start_timer timeout w) w' /\
    rx (uart w')
    = (more ++ arrived (uart w) (List.length g + String.length hs + 2))%list.
Proof.
  intros Hg Hd He Hint Hdec Hrx Hb Hfuel.
  set (n := String.length hs) in *. set (m := List.length g) in *.
  unfold receive_netstring. set (w0 := TC.start_timer timeout w) in *.
  destruct (header_loop_garbage g _ (n + S (fuel - m - n - 1)) w0 Hg Hrx
              (@budget_weaken (m + n + 2) m w0 ltac:(lia) Hb))
    as (wg & Heqg & Hadvg & Hrxg).
  fold m in Heqg, Hadvg, Hrxg.
  replace (m + (n + S (fuel - m - n - 1)))%nat with fuel in Heqg by lia.
  rewrite Heqg. rewrite <- app_assoc in Hrxg. simpl in Hrxg.
  assert (Hbg : budget (n + 2) wg).
  { apply (@budget_advanced m (n + 2) w0 wg); [|exact Hadvg].
    replace (m + (n + 2))%nat with (m + n + 2)%nat by lia. exact Hb. }
  destruct (header_loop_numeral hs ds _ (fuel - m - n - 1) wg Hd He Hrxg
              (@budget_weaken (n + 2) (n + 1) wg ltac:(lia) Hbg))
    as (w1 & Hh & Hadv1 & Hrx1).
  fold n in Hh, Hadv1, Hrx1. rewrite Hh, Hint.
  assert (Hb1 : budget 1 w1).
  { apply (@budget_advanced (n + 1) 1 wg w1); [|exact Hadv1].
    replace (n + 1 + 1)%nat with (n + 2)%nat by lia. exact Hbg. }
  rewrite <- !app_assoc in Hrx1.
  destruct fuel as [|fuel']; [lia|].
  destruct (@payload_loop_buffered fuel' pb _ w1 (@budget_not_expired 0 w1 Hb1) Hrx1)
    as (w2 & Hp & Hadv2 & Hrx2).
  rewrite Hp, (@finish_netstring_frame pb payload Hdec).
  exists w2. split; [reflexivity|].
  pose proof (@advanced_trans _ _ _ _ _
                (@advanced_trans _ _ _ _ _ Hadvg Hadv1) Hadv2) as Hadv.
  split.
  { replace (m + n + 2)%nat with (m + (n + 1) + 1)%nat by lia. exact Hadv. }
  rewrite Hrx2, <- !app_assoc. f_equal.
  destruct Hadvg as (_ & _ & Hfg & Hpg & _).
  destruct Hadv1 as (_ & _ & Hf1 & Hp1 & _).
  replace (m + n + 2)%nat with (m + (n + 1 + 1))%nat by lia.
  rewrite (arrived_app (uart w) m (n + 1 + 1) wg Hfg Hpg).
  f_equal.
  rewrite (arrived_app (uart wg) (n + 1) 1 w1 Hf1 Hp1). reflexivity.
Qed.

End Streams.

Section FrameTheorems.
Import Py.

Lemma budget_from_start (k : nat) (timeout : Z) (w : world) :
  (0 <= interval_s (timeout_checker (TC.start_timer timeout w)))%Z ->
  (Z.of_nat k * interval_s (timeout_checker (TC.start_timer timeout w))
   <= timeout_s (timeout_checker (TC.start_timer timeout w)))%Z ->
  budget (S k) (TC.start_timer timeout w).
Proof.
  intros HI HT. apply budget_intro; [exact HI|].
  rewrite start_timer_elapsed. lia.
Qed.

Lemma netstring_frame_parts (payload : string) (bs : list byte) :
  netstring payload = Some bs ->
  exists ds pb,
    encode_ascii (str_of_int (N.of_nat (String.length payload))) = Some ds /\
    decode_ascii pb = Some payload /\
    List.length pb = String.length payload /\
    bs = (ds ++ colon_byte :: pb ++ [comma])%list.
Proof.
  intros H. destruct (@netstring_layout payload bs H) as (ds & pb & Hds & Hpb & Hlen & Hbs).
  exists ds, pb. repeat split; auto. now apply PyFacts.decode_encode_ascii.
Qed.

(** X6.  Resynchronisation: ASCII bytes that are no digits -- colons
    included -- in front of a frame are skipped, one per poll, and the decode
    returns the payload of the frame, the time budget covering one poll per
    skipped byte as well. *)
Theorem receive_skips_garbage (g : list byte) (payload : string)
        (bs more : list byte) (timeout : Z) (fuel : nat) (w : world) :
  let n := (List.length g
            + String.length (str_of_int (N.of_nat (String.length payload))))%nat in
  let tc := timeout_checker (TC.start_timer timeout w) in
  Forall (fun b => corrupt_byte b = true) g ->
  netstring payload = Some bs ->
  rx (uart w) = (g ++ bs ++ more)%list ->
  (0 <= interval_s tc)%Z ->
  ((Z.of_nat n + 1) * interval_s tc <= timeout_s tc)%Z ->
  (n + 1 <= fuel)%nat ->
  exists w',
    receive_netstring fuel timeout w = Some (Ret payload, w') /\
    rx (uart w') = (more ++ arrived (uart w) (n + 2))%list.
Proof.
  intros n tc Hg Hnet Hrx HI HT Hfuel.
  destruct (netstring_frame_parts payload bs Hnet) as (ds & pb & Hds & Hdec & Hlen & ->).
  destruct (receive_frame_general g (str_of_int (N.of_nat (String.length payload)))
              ds pb more payload timeout fuel w Hg
              (PyFacts.isdigit_str_of_int _) Hds)
    as (w' & Hr & _ & Hrx'); auto.
  - rewrite Hlen. apply PyFacts.int_of_str_of_int.
  - rewrite Hrx, <- !app_assoc, <- app_comm_cons, <- !app_assoc. reflexivity.
  - fold n. replace (n + 2)%nat with (S (n + 1)) by lia.
    apply budget_from_start; fold tc; [exact HI | lia].
  - exists w'. split; [exact Hr | exact Hrx'].
Qed.

Lemma receive_skips_garbage_witness :
  result_of (receive_netstring 30 5000
               (Sample.server (list_byte_of_string "b:a," ++ Sample.frame "n")))
  = Some (Ret "n").
Proof.
  destruct (receive_skips_garbage (list_byte_of_string "b:a,") "n" (Sample.frame "n") []
              5000 30
              (Sample.server (list_byte_of_string "b:a," ++ Sample.frame "n")))
    as (w' & H & _).
  - repeat constructor.
  - reflexivity.
  - reflexivity.
  - vm_compute. discriminate.
  - vm_compute. discriminate.
  - vm_compute. lia.
  - rewrite H. reflexivity.
Defined.

Lemma isdigit_zeros (k : nat) (s : string) :
  isdigit s = true -> isdigit (zeros k ++ s) = true.
Proof.
  intros H. induction k as [|k IH]; [exact H|].
  simpl. destruct (zeros k ++ s); [discriminate | exact IH].
Qed.

Lemma int_of_str_zeros (k : nat) (s : string) :
  isdigit s = true -> int_of_str (zeros k ++ s) = int_of_str s.
Proof.
  intros H. induction k as [|k IH]; [reflexivity|].
  rewrite <- IH. pose proof (isdigit_zeros k s H) as Hz.
  unfold int_of_str. rewrite Hz.
  change (zeros (S k) ++ s) with (String "0"%char (zeros k ++ s)).
  assert (Hz' : isdigit (String "0"%char (zeros k ++ s)) = true).
  { simpl. destruct (zeros k ++ s); [discriminate | exact Hz]. }
  rewrite Hz'. simpl.
  destruct (NilEmpty.uint_of_string (zeros k ++ s)); reflexivity.
Qed.

Lemma length_zeros (k : nat) : String.length (zeros k) = k.
Proof. induction k; simpl; congruence. Qed.

Lemma length_append (s t : string) :
  String.length (s ++ t) = (String.length s + String.length t)%nat.
Proof. induction s as [|c s IH]; simpl; congruence. Qed.

(** X7.  The length may be written with leading zeros: [int] reads the
    padded numeral as the same number, so a frame whose header is padded with
    [k] zeros decodes to the same payload as the frame [send_netstring]
    writes. *)
Theorem receive_accepts_leading_zeros (k : nat) (payload : string)
        (bs more : list byte) (timeout : Z) (fuel : nat) (w : world) :
  let hs := zeros k ++ str_of_int (N.of_nat (String.length payload)) in
  let n := String.length hs in
  let tc := timeout_checker (TC.start_timer timeout w) in
  encode_ascii (hs ++ ":" ++ payload ++ ",") = Some bs ->
  rx (uart w) = (bs ++ more)%list ->
  (0 <= interval_s tc)%Z ->
  ((Z.of_nat n + 1) * interval_s tc <= timeout_s tc)%Z ->
  (n + 1 <= fuel)%nat ->
  exists w',
    receive_netstring fuel timeout w = Some (Ret payload, w') /\
    rx (uart w') = (more ++ arrived (uart w) (n + 2))%list.
Proof.
  intros hs n tc Henc Hrx HI HT Hfuel.
  rewrite !PyFacts.encode_ascii_app in Henc.
  destruct (encode_ascii hs) as [ds|] eqn:Hds; [|discriminate].
  destruct (encode_ascii payload) as [pb|] eqn:Hpb; [|discriminate].
  simpl in Henc. inversion Henc; subst bs; clear Henc.
  pose proof (PyFacts.isdigit_str_of_int (N.of_nat (String.length payload))) as Hd.
  destruct (receive_frame_general [] hs ds pb more payload timeout fuel w)
    as (w' & Hr & _ & Hrx'); auto.
  - apply isdigit_zeros. exact Hd.
  - unfold hs. rewrite (int_of_str_zeros k _ Hd), PyFacts.int_of_str_of_int.
    now rewrite (PyFacts.encode_ascii_length _ Hpb).
  - now apply PyFacts.decode_encode_ascii.
  - rewrite Hrx. simpl. rewrite <- !app_assoc, <- app_comm_cons, <- !app_assoc.
    reflexivity.
  - simpl List.length. fold n. replace (0 + n + 2)%nat with (S (n + 1)) by lia.
    apply budget_from_start; fold tc; [exact HI | lia].
  - exists w'. split; [exact Hr | exact Hrx'].
Qed.

Lemma receive_accepts_leading_zeros_witness :
  result_of (receive_netstring 30 5000
               (Sample.server (list_byte_of_string "003:abc,")))
  = Some (Ret "abc").
Proof.
  destruct (receive_accepts_leading_zeros 2 "abc" (list_byte_of_string "003:abc,") []
              5000 30 (Sample.server (list_byte_of_string "003:abc,")))
    as (w' & H & _).
  - reflexivity.
  - reflexivity.
  - vm_compute. discriminate.
  - vm_compute. discriminate.
  - vm_compute. lia.
  - rewrite H. reflexivity.
Defined.

Lemma start_timer_again (timeout : Z) (w w1 : world) :
  timeout_checker w1 = timeout_checker (TC.start_timer timeout w) ->
  timeout_s (timeout_checker (TC.start_timer timeout w1))
  = timeout_s (timeout_checker (TC.start_timer timeout w)) /\
  interval_s (timeout_checker (TC.start_timer timeout w1))
  = interval_s (timeout_checker (TC.start_timer timeout w)).
Proof.
  intros H. unfold TC.start_timer in *. simpl in *.
  destruct (timeout =? 0)%Z; simpl in *; rewrite H; simpl; auto.
Qed.

(** X8.  Frames that sit back to back on the line are decoded one per
    call: the first decode takes exactly its frame off the line, and the
    next decode, with a fresh time budget, returns the payload of the second
    frame. *)
Theorem receive_two_frames (p1 p2 : string) (b1 b2 more : list byte)
        (timeout : Z) (fuel : nat) (w : world) :
  let n1 := String.length (str_of_int (N.of_nat (String.length p1))) in
  let n2 := String.length (str_of_int (N.of_nat (String.length p2))) in
  let tc := timeout_checker (TC.start_timer timeout w) in
  netstring p1 = Some b1 ->
  netstring p2 = Some b2 ->
  rx (uart w) = (b1 ++ b2 ++ more)%list ->
  (0 <= interval_s tc)%Z ->
  ((Z.of_nat n1 + 1) * interval_s tc <= timeout_s tc)%Z ->
  ((Z.of_nat n2 + 1) * interval_s tc <= timeout_s tc)%Z ->
  (n1 + 1 <= fuel)%nat ->
  (n2 + 1 <= fuel)%nat ->
  exists w1 w2,
    receive_netstring fuel timeout w = Some (Ret p1, w1) /\
    receive_netstring fuel timeout w1 = Some (Ret p2, w2) /\
    rx (uart w2) = (more ++ arrived (uart w) (n1 + 2 + (n2 + 2)))%list.
Proof.
  intros n1 n2 tc H1 H2 Hrx HI HT1 HT2 Hf1 Hf2.
  destruct (netstring_frame_parts p1 b1 H1) as (ds1 & pb1 & Hds1 & Hdec1 & Hlen1 & ->).
  destruct (netstring_frame_parts p2 b2 H2) as (ds2 & pb2 & Hds2 & Hdec2 & Hlen2 & Hb2).
  destruct (receive_frame_general [] (str_of_int (N.of_nat (String.length p1)))
              ds1 pb1 (b2 ++ more) p1 timeout fuel w)
    as (w1 & Hr1 & Hadv1 & Hrx1); auto.
  - apply PyFacts.isdigit_str_of_int.
  - rewrite Hlen1. apply PyFacts.int_of_str_of_int.
  - rewrite Hrx. simpl. rewrite <- !app_assoc, <- app_comm_cons, <- !app_assoc.
    reflexivity.
  - simpl List.length. fold n1. replace (0 + n1 + 2)%nat with (S (n1 + 1)) by lia.
    apply budget_from_start; fold tc; [exact HI | lia].
  - simpl List.length in Hrx1, Hadv1. fold n1 in Hrx1, Hadv1.
    destruct Hadv1 as (Htc1 & _ & Hfeed1 & Hpolls1 & _).
    destruct (start_timer_again timeout w w1 Htc1) as [HT HIv].
    destruct (receive_frame_general [] (str_of_int (N.of_nat (String.length p2)))
                ds2 pb2 (more ++ arrived (uart w) (0 + n1 + 2)) p2 timeout fuel w1)
      as (w2 & Hr2 & _ & Hrx2); auto.
    + apply PyFacts.isdigit_str_of_int.
    + rewrite Hlen2. apply PyFacts.int_of_str_of_int.
    + rewrite Hrx1, Hb2. simpl.
      rewrite <- !app_assoc, <- app_comm_cons, <- !app_assoc. reflexivity.
    + simpl List.length. fold n2. replace (0 + n2 + 2)%nat with (S (n2 + 1)) by lia.
      apply budget_from_start; rewrite ?HT, ?HIv; fold tc; [exact HI | lia].
    + exists w1, w2. split; [exact Hr1|]. split; [exact Hr2|].
      rewrite Hrx2, <- app_assoc. f_equal. simpl List.length. fold n2.
      symmetry. apply (arrived_app (uart w) (n1 + 2) (n2 + 2) w1).
      * exact Hfeed1.
      * exact Hpolls1.
Qed.

Lemma receive_two_frames_witness :
  exists w1,
    receive_netstring 30 5000
      (Sample.server (Sample.frame "abc" ++ Sample.frame "n"))
    = Some (Ret "abc", w1) /\
    result_of (receive_netstring 30 5000 w1) = Some (Ret "n").
Proof.
  destruct (receive_two_frames "abc" "n" (Sample.frame "abc") (Sample.frame "n") []
              5000 30 (Sample.server (Sample.frame "abc" ++ Sample.frame "n")))
    as (w1 & w2 & H1 & H2 & _).
  - reflexivity.
  - reflexivity.
  - reflexivity.
  - vm_compute. discriminate.
  - vm_compute. discriminate.
  - vm_compute. discriminate.
  - vm_compute. lia.
  - vm_compute. lia.
  - exists w1. split; [exact H1|]. rewrite H2. reflexivity.
Defined.

End FrameTheorems.

Section Codec.
Import Py.

(** X9.  [send_netstring] checks the payload before it writes: a payload
    with a character above 0x7f raises the encoding error and nothing is
    written; an ASCII payload appends one frame to what was written before --
    the decimal length, a colon, the payload and a comma, which is two bytes
    more than the numeral and the payload -- and leaves the receive buffer,
    the clock and the timer alone. *)
Theorem send_netstring_frame (payload : string) (w : world) :
  (encode_ascii payload = None ->
   exists c start stop,
     send_netstring payload w = (Raise (UnicodeEncodeError c start stop), w) /\
     String.get start payload = Some c /\
     is_ascii_char c = false /\
     (start < stop <= String.length payload)%nat) /\
  (encode_ascii payload <> None ->
   exists bs,
     send_netstring payload w
     = (Ret tt, mkWorld (now w)
                  (mkUART (feed (uart w)) (polls (uart w)) (rx (uart w))
                     (tx (uart w) ++ bs))
                  (timeout_checker w)) /\
     decode_ascii bs
     = Some (str_of_int (N.of_nat (String.length payload)) ++ ":" ++ payload ++ ",") /\
     List.length bs
     = (String.length (str_of_int (N.of_nat (String.length payload)))
        + String.length payload + 2)%nat).
Proof.
  split.
  - intros H. destruct (PyFacts.unencodable_spec payload H)
      as (c & start & stop & Hu & Hrest).
    exists c, start, stop. split; [|exact Hrest].
    unfold send_netstring, netstring, encode_error. now rewrite H, Hu.
  - intros H. destruct (netstring_ascii payload H) as [bs Hbs].
    exists bs. split; [unfold send_netstring; now rewrite Hbs|].
    unfold netstring in Hbs.
    destruct (encode_ascii payload) as [pb|] eqn:Hp; [|congruence].
    rewrite (PyFacts.encode_ascii_length _ Hp) in Hbs. split.
    + now apply PyFacts.decode_encode_ascii.
    + rewrite (PyFacts.encode_ascii_length _ Hbs), !length_append. simpl. lia.
Qed.

Lemma send_netstring_frame_witness :
  exists bs,
    send_netstring "n" (Sample.server [])
    = (Ret tt, mkWorld 0 (mkUART (fun _ => []) 0 [] ([] ++ bs)) (TC.init 5000 200 0)) /\
    decode_ascii bs = Some "1:n," /\
    List.length bs = 4%nat.
Proof.
  apply (proj2 (send_netstring_frame "n" (Sample.server []))).
  vm_compute. discriminate.
Defined.

(** X10.  Frames are self-delimiting: when a frame followed by some bytes
    reads the same as another frame followed by some bytes, the two payloads
    are equal, and so are the frames and what follows them.  No frame is a
    proper prefix of another, and different payloads have different
    frames. *)
Theorem netstring_prefix_free (p1 p2 : string) (b1 b2 m1 m2 : list byte) :
  netstring p1 = Some b1 ->
  netstring p2 = Some b2 ->
  (b1 ++ m1)%list = (b2 ++ m2)%list ->
  p1 = p2 /\ b1 = b2 /\ m1 = m2.
Proof.
  intros H1 H2 Heq.
  set (n1 := String.length (str_of_int (N.of_nat (String.length p1)))).
  set (n2 := String.length (str_of_int (N.of_nat (String.length p2)))).
  set (w := mkWorld 0 (quiet_line (b1 ++ m1)) (mkTimeoutChecker 0 0 0 0)).
  assert (Hb : forall k, budget k (TC.start_timer 0 w)).
  { intros k i _. simpl. lia. }
  destruct (netstring_frame_parts p1 b1 H1) as (ds1 & pb1 & Hds1 & Hdec1 & Hlen1 & E1).
  destruct (netstring_frame_parts p2 b2 H2) as (ds2 & pb2 & Hds2 & Hdec2 & Hlen2 & E2).
  destruct (receive_frame_general [] (str_of_int (N.of_nat (String.length p1)))
              ds1 pb1 m1 p1 0 (n1 + n2 + 1) w)
    as (w1 & Hr1 & _); auto.
  { apply PyFacts.isdigit_str_of_int. }
  { rewrite Hlen1. apply PyFacts.int_of_str_of_int. }
  { simpl. rewrite E1, <- !app_assoc, <- app_comm_cons, <- !app_assoc. reflexivity. }
  { simpl List.length. fold n1. lia. }
  destruct (receive_frame_general [] (str_of_int (N.of_nat (String.length p2)))
              ds2 pb2 m2 p2 0 (n1 + n2 + 1) w)
    as (w2 & Hr2 & _); auto.
  { apply PyFacts.isdigit_str_of_int. }
  { rewrite Hlen2. apply PyFacts.int_of_str_of_int. }
  { simpl. rewrite Heq, E2, <- !app_assoc, <- app_comm_cons, <- !app_assoc.
    reflexivity. }
  { simpl List.length. fold n2. lia. }
  rewrite Hr1 in Hr2. inversion Hr2; subst p2.
  assert (Hbs : b1 = b2) by congruence.
  split; [reflexivity|]. split; [exact Hbs|].
  rewrite <- Hbs in Heq. now apply app_inv_head in Heq.
Qed.

Lemma netstring_prefix_free_witness :
  "abc" = "abc" /\ Sample.frame "abc" = Sample.frame "abc"
  /\ list_byte_of_string "xyz" = list_byte_of_string "xyz".
Proof.
  apply (netstring_prefix_free "abc" "abc" (Sample.frame "abc") (Sample.frame "abc")
           (list_byte_of_string "xyz") (list_byte_of_string "xyz"));
    reflexivity.
Defined.

End Codec.

(** ** Frames that arrive in pieces *)

Section Fragments.
Import Py.

Lemma delivers_after_silence (w : world) (bs : list byte) :
  fst (uart_read 1 (uart w)) = None ->
  delivers (uart w) bs -> delivers (uart (after_read1 w)) bs.
Proof.
  intros Hr Hd k. pose proof (after_read_pending 1 w k) as Hp.
  rewrite Hr in Hp.
  change (pending (uart (after_read1 w)) k = pending (uart w) (S k)) in Hp.
  rewrite Hp. apply Hd.
Qed.

Lemma delivers_after_byte (w : world) (out : list byte) (b : byte) (bs : list byte) :
  fst (uart_read 1 (uart w)) = Some out ->
  delivers (uart w) (b :: bs) ->
  out = [b] /\ delivers (uart (after_read1 w)) bs.
Proof.
  intros Hr Hd. destruct (@uart_read1_single _ _ Hr) as [x ->].
  assert (Hp : forall k, x :: pending (uart (after_read1 w)) k = pending (uart w) (S k)).
  { intros k. pose proof (after_read_pending 1 w k) as Hp. now rewrite Hr in Hp. }
  assert (Hx : x = b).
  { destruct (Hd 1%nat) as [[rest H] | [more H]]; rewrite <- Hp in H;
      simpl in H; congruence. }
  subst x. split; [reflexivity|]. intros k.
  destruct (Hd (S k)) as [[rest H] | [more H]]; rewrite <- Hp in H; simpl in H;
    inversion H; [left | right]; eauto.
Qed.

(** However the header arrives, the header loop ends with its numeral or
    with the timeout. *)
Lemma header_loop_delivered (fuel : nat) :
  forall s acc ds body w r w1,
    all_digits s = true ->
    encode_ascii s = Some ds ->
    isdigit (acc ++ s) = true ->
    delivers (uart w) (ds ++ colon_byte :: body) ->
    header_loop fuel acc w = Some (r, w1) ->
    r = Raise TimeoutReadingNetstring \/
    (r = Ret (acc ++ s) /\ delivers (uart w1) body).
Proof.
  induction fuel as [|fuel IH]; intros s acc ds body w r w1 Hs He Hd Hdel H;
    [discriminate|].
  destruct (TC.expired w) eqn:Hexp.
  - rewrite (header_loop_expired _ _ _ Hexp) in H. left. congruence.
  - rewrite (header_loop_pass _ _ _ Hexp) in H.
    destruct (fst (uart_read 1 (uart w))) as [out|] eqn:Hr.
    + destruct s as [|c s].
      * simpl in He. inversion He; subst ds. simpl in Hdel.
        destruct (delivers_after_byte w out _ _ Hr Hdel) as [-> Hdel'].
        rewrite append_empty_r in *. simpl in H. rewrite Hd in H.
        right. inversion H; subst. split; [reflexivity | exact Hdel'].
      * simpl in Hs, He. apply andb_true_iff in Hs as [Hc Hs].
        destruct (is_ascii_char c) eqn:Hac; [|discriminate].
        destruct (encode_ascii s) as [ds'|] eqn:Hes; [|discriminate].
        inversion He; subst ds. simpl in Hdel.
        destruct (delivers_after_byte w out _ _ Hr Hdel) as [-> Hdel'].
        rewrite decode_ascii_single in H
          by (unfold is_ascii_byte; now rewrite PyFacts.to_N_byte_of_ascii).
        rewrite isdigit_single, ascii_of_byte_of_ascii, Hc in H.
        rewrite <- (append_single acc c s).
        apply (IH s (acc ++ String c "") ds' body (after_read1 w) r w1); auto.
        now rewrite append_single.
    + apply (IH s acc ds body (after_read1 w) r w1); auto.
      now apply delivers_after_silence.
Qed.

Lemma app_eq_length (A : Type) (a b x y : list A) :
  (a ++ x)%list = (b ++ y)%list -> List.length a = List.length b -> a = b.
Proof.
  revert b. induction a as [|h a IH]; intros [|h' b] H Hl; simpl in *;
    try discriminate; [reflexivity|].
  inversion H; subst. f_equal. apply IH; [assumption | lia].
Qed.

(** X11.  Fragmentation does not matter for the result: when the line
    delivers the frame of an ASCII payload first -- in whatever pieces, at
    whatever polls, with whatever after it -- a decode that ends can only
    end with that payload or with the timeout; it never returns another text
    and never reports a malformed frame. *)
Theorem fragmented_frame_decodes (payload : string) (bs : list byte)
        (timeout : Z) (fuel : nat) (w : world) (r : outcome string) (w' : world) :
  netstring payload = Some bs ->
  delivers (uart w) bs ->
  receive_netstring fuel timeout w = Some (r, w') ->
  r = Ret payload \/ r = Raise TimeoutReadingNetstring.
Proof.
  intros Hnet Hdel H.
  destruct (netstring_frame_parts payload bs Hnet) as (ds & pb & Hds & Hdec & Hlen & ->).
  unfold receive_netstring in H.
  destruct (header_loop fuel "" (TC.start_timer timeout w)) as [[rh w1]|] eqn:Hh;
    [|discriminate].
  destruct (header_loop_delivered fuel
              (str_of_int (N.of_nat (String.length payload))) "" ds
              (pb ++ [comma]) (TC.start_timer timeout w) rh w1
              (PyFacts.all_digits_str_of_int _) Hds
              (PyFacts.isdigit_str_of_int _) Hdel Hh) as [-> | [-> Hdel1]].
  - right. congruence.
  - simpl append in H. rewrite PyFacts.int_of_str_of_int in H.
    destruct (payload_loop fuel (N.of_nat (String.length payload)) [] w1)
      as [[rp w2]|] eqn:Hp; [|discriminate].
    destruct rp as [data|e].
    + left.
      destruct (@payload_loop_reads fuel (N.of_nat (String.length payload))
                  [] w1 data w2) as (Hl & k & _ & Hk);
        [simpl; lia | exact Hp |].
      simpl in Hk. fold (pending (uart w1) k) in Hk.
      assert (Hdata : data = (pb ++ [comma])%list).
      { destruct (Hdel1 k) as [[rest E] | [more E]]; rewrite <- Hk in E.
        - rewrite <- app_assoc in E.
          apply (app_eq_length _ data (pb ++ [comma])%list
                   (rx (uart w2) ++ rest)%list []);
            [now rewrite app_nil_r | rewrite length_app; simpl; lia].
        - symmetry in E.
          apply (app_eq_length _ data (pb ++ [comma])%list (rx (uart w2)) more E).
          rewrite length_app. simpl. lia. }
      subst data. rewrite (@finish_netstring_frame pb payload Hdec) in H.
      congruence.
    + right. rewrite (@payload_loop_raises fuel _ [] w1 e w2 Hp) in H. congruence.
Qed.

Lemma concat_nth_skipn (l : list (list byte)) :
  forall a k,
    (nth a l [] ++ List.concat (firstn k (skipn (S a) l)))%list
    = List.concat (firstn (S k) (skipn a l)).
Proof.
  induction l as [|x l IH]; intros a k.
  - destruct a; simpl; now rewrite firstn_nil.
  - destruct a as [|a]; [reflexivity|]. simpl nth.
    change (skipn (S (S a)) (x :: l)) with (skipn (S a) l).
    change (skipn (S a) (x :: l)) with (skipn a l). apply IH.
Qed.

Lemma arrived_chunks (chunks : list (list byte)) (k : nat) :
  forall a,
    List.concat (map (fun i => nth i chunks []) (seq a k))
    = List.concat (firstn k (skipn a chunks)).
Proof.
  induction k as [|k IH]; intros a; [reflexivity|].
  simpl seq. simpl map. simpl List.concat at 1.
  rewrite IH. apply concat_nth_skipn.
Qed.

(** A line fed piece by piece delivers the pieces joined. *)
Lemma chunked_line_delivers (chunks : list (list byte)) :
  delivers (chunked_line chunks) (List.concat chunks).
Proof.
  intros k. left. exists (List.concat (skipn k chunks)).
  unfold pending, arrived, chunked_line. simpl.
  rewrite arrived_chunks. simpl skipn.
  rewrite <- concat_app, firstn_skipn. reflexivity.
Qed.

Lemma fragmented_frame_decodes_witness :
  Ret "abc" = Ret "abc" \/ @Ret string "abc" = Raise TimeoutReadingNetstring.
Proof.
  apply (fragmented_frame_decodes "abc" (Sample.frame "abc") 5000 30
           (ESP32_init (chunked_line [[x33]; []; [x3a; x61]; []; []; [x62; x63]; [x2c]]) 0)
           (Ret "abc")
           (after_read 2 (after_read 3 (after_read 3 (after_read 3
              (after_read1 (after_read1 (after_read1
                 (TC.start_timer 5000
                    (ESP32_init (chunked_line
                       [[x33]; []; [x3a; x61]; []; []; [x62; x63]; [x2c]]) 0)))))))))).
  - reflexivity.
  - apply (chunked_line_delivers [[x33]; []; [x3a; x61]; []; []; [x62; x63]; [x2c]]).
  - vm_compute. reflexivity.
Defined.

End Fragments.

(** ** Turns of the service loop *)

Section Turns.
Import Py.

Variable loads : string -> value + string.
Variable dumps : value -> string.
Variable methods : list (string * handler).

(** When the wait returns there is data, and the wait wrote nothing and
    left the timer alone. *)
Lemma blocking_footprint (fuel : nat) :
  forall w w0,
    blocking_until_data_available fuel w = Some w0 ->
    rx (uart w0) <> [] /\
    tx (uart w0) = tx (uart w) /\
    timeout_checker w0 = timeout_checker w.
Proof.
  induction fuel as [|fuel IH]; intros w w0 H; [discriminate|].
  cbn [blocking_until_data_available uart_any] in H.
  destruct (rx (uart_poll (uart w))) as [|b l] eqn:E; simpl in H.
  - apply IH in H. exact H.
  - inversion H; subst. unfold set_uart. cbn [uart]. rewrite E.
    repeat split. discriminate.
Qed.

(** With a positive interval and fuel for more turns than the budget
    allows, a decode has an outcome. *)
Lemma receive_total (fuel : nat) (timeout : Z) (w : world) :
  (0 < interval_s (timeout_checker w))%Z ->
  (ticks_left (TC.start_timer timeout w) < fuel)%nat ->
  exists r w', receive_netstring fuel timeout w = Some (r, w').
Proof.
  intros HI Hfuel.
  assert (HI0 : (0 < interval_s (timeout_checker (TC.start_timer timeout w)))%Z)
    by (now rewrite start_timer_interval).
  destruct (@header_loop_terminates fuel "" (TC.start_timer timeout w) HI0 Hfuel)
    as (rh & w1 & Hh & Htc & Hle).
  unfold receive_netstring. rewrite Hh.
  destruct rh as [h|e]; [|eauto].
  destruct (int_of_str h) as [L|]; [|eauto].
  destruct (@payload_loop_terminates fuel L [] w1) as (rp & w2 & Hp);
    [now rewrite Htc | lia |].
  rewrite Hp. destruct rp; eauto.
Qed.

Lemma to_ascii_encodes (s : string) : encode_ascii (to_ascii s) <> None.
Proof.
  induction s as [|c s IH]; simpl; [discriminate|].
  destruct (is_ascii_char c) eqn:Hc.
  - rewrite Hc. destruct (encode_ascii (to_ascii s)); congruence.
  - simpl. destruct (encode_ascii (to_ascii s)); congruence.
Qed.

(** A turn that has an outcome ended normally and wrote one frame. *)
Lemma run_once_footprint (fuel : nat) (w : world) (r : outcome unit) (w' : world) :
  (forall v, encode_ascii (dumps v) <> None) ->
  run_once loads dumps methods fuel w = Some (r, w') ->
  r = Ret tt /\
  exists bs,
    (exists s_response, netstring s_response = Some bs) /\
    tx (uart w') = (tx (uart w) ++ bs)%list /\
    timeout_s (timeout_checker w') = 5000%Z /\
    interval_s (timeout_checker w') = interval_s (timeout_checker w).
Proof.
  intros Hascii H. unfold run_once in H.
  destruct (run_try loads methods fuel w) as [[[rt request_id] w1]|] eqn:Htry;
    [|discriminate].
  assert (Hw1 : tx (uart w1) = tx (uart w) /\
                (timeout_s (timeout_checker w1) = 5000%Z /\
                 interval_s (timeout_checker w1) = interval_s (timeout_checker w))).
  { unfold run_try in Htry.
    destruct (blocking_until_data_available fuel w) as [w0|] eqn:Hb; [|discriminate].
    destruct (blocking_footprint _ _ _ Hb) as (_ & Htx0 & Htc0).
    destruct (receive_netstring fuel 5000 w0) as [[rr w2]|] eqn:Hr; [|discriminate].
    destruct (receive_reads_only _ _ _ _ _ Hr) as (k & c & _ & Htx & _ & _ & _ & Htc & _).
    assert (Hw : w1 = w2).
    { destruct rr as [s|e]; [|congruence].
      destruct (parse_request loads s) as [o|e]; [|congruence].
      destruct (py_get o "id" VNone); congruence. }
    subst w2. rewrite Htx, Htx0, Htc. split; [reflexivity|].
    rewrite start_timer_interval, Htc0. split; reflexivity. }
  destruct Hw1 as [Htx Htc].
  set (s_response := match rt with
                     | Ret o_result => create_response dumps o_result request_id
                     | Raise ex => create_error_response dumps (str_exn ex) request_id
                     end) in *.
  assert (Hs : encode_ascii s_response <> None)
    by (unfold s_response; destruct rt; apply Hascii).
  destruct (netstring_ascii s_response Hs) as [bs Hbs].
  unfold send_netstring in H. rewrite Hbs in H. inversion H; subst.
  split; [reflexivity|]. exists bs. split; [eauto|]. simpl.
  rewrite Htx. split; [reflexivity | exact Htc].
Qed.

(** X12.  Once data is available a turn of the loop always completes:
    with the poll interval positive and fuel for more polls than the five
    seconds allow, the turn ends normally, having appended exactly one frame
    to what was written; and it leaves the timer set to five seconds. *)
Theorem run_once_completes (fuel : nat) (w w0 : world) :
  (forall v, encode_ascii (dumps v) <> None) ->
  blocking_until_data_available fuel w = Some w0 ->
  (0 < interval_s (timeout_checker w))%Z ->
  (Z.to_nat (5000 / interval_s (timeout_checker w) + 1) < fuel)%nat ->
  exists w' bs,
    run_once loads dumps methods fuel w = Some (Ret tt, w') /\
    (exists s_response, netstring s_response = Some bs) /\
    tx (uart w') = (tx (uart w) ++ bs)%list /\
    timeout_s (timeout_checker w') = 5000%Z /\
    interval_s (timeout_checker w') = interval_s (timeout_checker w).
Proof.
  intros Hascii Hb HI Hfuel.
  destruct (blocking_footprint _ _ _ Hb) as (_ & _ & Htc0).
  assert (HI0 : (0 < interval_s (timeout_checker w0))%Z) by (now rewrite Htc0).
  assert (Hf0 : (ticks_left (TC.start_timer 5000 w0) < fuel)%nat).
  { rewrite ticks_left_start_timer, start_timer_interval, Htc0. exact Hfuel. }
  destruct (receive_total fuel 5000 w0 HI0 Hf0) as (rr & w1 & Hr).
  assert (Hsome : exists r w', run_once loads dumps methods fuel w = Some (r, w')).
  { unfold run_once.
    destruct (run_try loads methods fuel w) as [[[rt rid] w1']|] eqn:Htry.
    - destruct (send_netstring _ w1'); eauto.
    - exfalso. unfold run_try in Htry. rewrite Hb, Hr in Htry.
      destruct rr as [s|e]; [|discriminate].
      destruct (parse_request loads s) as [o|e]; [|discriminate].
      destruct (py_get o "id" VNone); discriminate. }
  destruct Hsome as (r & w' & Hone).
  destruct (run_once_footprint fuel w r w' Hascii Hone)
    as (-> & bs & Hbs & Htx & HT & HIv).
  exists w', bs. repeat split; auto.
Qed.

(** X13.  No exception leaves the loop: as long as the serialised
    responses are ASCII, any number of turns that have an outcome ended
    normally, and they appended as many frames to what was written, one per
    turn and in order. *)
Theorem run_never_raises (turns fuel : nat) :
  forall (w : world) (r : outcome unit) (w' : world),
    (forall v, encode_ascii (dumps v) <> None) ->
    run loads dumps methods turns fuel w = Some (r, w') ->
    r = Ret tt /\
    exists frames,
      List.length frames = turns /\
      Forall (fun bs => exists s_response, netstring s_response = Some bs) frames /\
      tx (uart w') = (tx (uart w) ++ List.concat frames)%list.
Proof.
  induction turns as [|turns IH]; intros w r w' Hascii H.
  - simpl in H. inversion H; subst. split; [reflexivity|].
    exists []. simpl. rewrite app_nil_r. repeat split. constructor.
  - simpl in H.
    destruct (run_once loads dumps methods fuel w) as [[r1 w1]|] eqn:Hone;
      [|discriminate].
    destruct (run_once_footprint fuel w r1 w1 Hascii Hone) as (-> & bs & Hbs & Htx & _).
    destruct (IH w1 r w' Hascii H) as (Hr & frames & Hlen & Hall & Htx').
    split; [exact Hr|]. exists (bs :: frames). split; [simpl; congruence|].
    split; [constructor; assumption|].
    rewrite Htx', Htx. simpl. now rewrite <- app_assoc.
Qed.

(** X14.  The success path of a turn: when the decode returns a text, the
    validator accepts it and the handler returns a result, the turn sends
    the frame of the success envelope, which carries that result and the id
    of the request, or the sentinel 0 when the request has no id or a falsy
    one. *)
Theorem run_once_replies_with_result (fuel : nat) (w w0 w1 : world)
        (s_request : string) (d : list (string * value)) (o_result : value) :
  blocking_until_data_available fuel w = Some w0 ->
  receive_netstring fuel 5000 w0 = Some (Ret s_request, w1) ->
  parse_request loads s_request = Ret (VDict d) ->
  handle_request methods (VDict d) = Ret o_result ->
  let request_id := match assoc "id" d with Some id => id | None => VNone end in
  let s_response :=
    dumps (VDict [("id", id_or_default request_id); ("result", o_result)]) in
  encode_ascii s_response <> None ->
  exists bs,
    netstring s_response = Some bs /\
    run_once loads dumps methods fuel w
    = Some (Ret tt, set_uart w1 (uart_write bs (uart w1))).
Proof.
  intros Hb Hr Hparse Hh request_id s_response Hascii.
  destruct (netstring_ascii s_response Hascii) as [bs Hbs].
  exists bs. split; [exact Hbs|].
  unfold run_once, run_try. rewrite Hb, Hr, Hparse, Hh. simpl.
  assert (Hs : create_response dumps o_result
                 match assoc "id" d with Some v => v | None => VNone end
               = s_response).
  { unfold create_response, response_object, s_response, id_or_default, request_id.
    destruct (truthy _); reflexivity. }
  destruct (assoc "id" d); simpl; unfold send_netstring;
    simpl in Hs; rewrite Hs, Hbs; reflexivity.
Qed.

End Turns.

Lemma run_once_completes_witness :
  exists w' bs,
    run_once Sample.loads ascii_dumps Sample.methods 30
      (Sample.server (Sample.frame Sample.set_led_text))
    = Some (Ret tt, w') /\
    (exists s_response, netstring s_response = Some bs) /\
    tx (uart w') = ([] ++ bs)%list /\
    timeout_s (timeout_checker w') = 5000%Z /\
    interval_s (timeout_checker w') = 200%Z.
Proof.
  apply (run_once_completes Sample.loads ascii_dumps Sample.methods 30
           (Sample.server (Sample.frame Sample.set_led_text))
           (set_uart (Sample.server (Sample.frame Sample.set_led_text))
              (uart_poll (uart (Sample.server (Sample.frame Sample.set_led_text)))))).
  - intros v. apply to_ascii_encodes.
  - vm_compute. reflexivity.
  - vm_compute. reflexivity.
  - vm_compute. lia.
Defined.

Lemma run_never_raises_witness :
  exists r w',
    run Sample.loads ascii_dumps Sample.methods 2 30
      (Sample.server (Sample.frame Sample.set_led_text
                        ++ Sample.frame Sample.nonsense_text))
    = Some (r, w') /\
    r = Ret tt.
Proof.
  assert (E : exists r w',
             run Sample.loads ascii_dumps Sample.methods 2 30
               (Sample.server (Sample.frame Sample.set_led_text
                                 ++ Sample.frame Sample.nonsense_text))
             = Some (r, w'))
    by (vm_compute; do 2 eexists; reflexivity).
  destruct E as (r & w' & E). exists r, w'. split; [exact E|].
  apply (run_never_raises Sample.loads ascii_dumps Sample.methods 2 30 _ r w'
           (fun v => to_ascii_encodes _) E).
Defined.

Lemma run_once_replies_with_result_witness :
  exists w1 bs,
    netstring (Sample.dumps (VDict [("id", VInt 0);
                                    ("result", VDict [("status", VBool true)])]))
    = Some bs /\
    run_once Sample.loads Sample.dumps Sample.methods 30
      (Sample.server (Sample.frame Sample.set_led_text))
    = Some (Ret tt, set_uart w1 (uart_write bs (uart w1))).
Proof.
  exists (after_read 61 (after_read1 (after_read1 (after_read1
            (TC.start_timer 5000
               (set_uart (Sample.server (Sample.frame Sample.set_led_text))
                  (uart_poll (uart (Sample.server
                                      (Sample.frame Sample.set_led_text)))))))))).
  apply (run_once_replies_with_result Sample.loads Sample.dumps Sample.methods 30
           (Sample.server (Sample.frame Sample.set_led_text))
           (set_uart (Sample.server (Sample.frame Sample.set_led_text))
              (uart_poll (uart (Sample.server (Sample.frame Sample.set_led_text)))))
           _ Sample.set_led_text
           [("method", VStr "set_led_color"); ("id", VInt 0);
            ("params", VDict [("rgb", VList [VInt 255; VInt 0; VInt 0])])]
           (VDict [("status", VBool true)])).
  - vm_compute. reflexivity.
  - vm_compute. reflexivity.
  - reflexivity.
  - reflexivity.
  - vm_compute. discriminate.
Defined.

(** ** Dispatch after validation *)

(** X15.  The validator and the dispatcher compose without surprises: a
    request that passed the validator is a mapping with a string under
    [method], and dispatch on it ends in exactly one of five ways -- "method
    is missing" for the empty name, "method is not found" for a name the
    table lacks, the [TypeError] of a non-empty list under [params] (which
    names the callee), the result of the registered handler, or the failure
    the handler raised.  No other exception (no attribute, key or hashing
    error) can come out. *)
Theorem validated_dispatch_table (loads : string -> value + string)
        (methods : list (string * handler)) (request : value) :
  validated loads request ->
  exists d name,
    request = VDict d /\
    assoc "method" d = Some (VStr name) /\
    handle_request methods request =
      if String.eqb name "" then Raise MethodMissing
      else
        match assoc name methods with
        | None => Raise MethodNotFound
        | Some f =>
            match parameter_set
                    (match assoc "params" d with Some p => p | None => VNone end)
            with
            | Some kwargs =>
                match f kwargs with
                | inl result => Ret result
                | inr msg => Raise (HandlerError msg)
                end
            | None =>
                Raise (TypeError (callee f
                                    ++ " argument after ** must be a mapping, not list"))
            end
        end.
Proof.
  intros [text Hparse].
  destruct (@parse_request_shape loads text request Hparse)
    as (d & name & -> & _ & Hm & Hp).
  exists d, name. split; [reflexivity|]. split; [exact Hm|].
  destruct (String.eqb name "") eqn:Hname.
  - apply String.eqb_eq in Hname. subst name.
    now apply handle_request_empty_name.
  - apply String.eqb_neq in Hname.
    rewrite (@handle_request_named methods d name Hm Hname).
    destruct (assoc name methods) as [f|]; [|reflexivity]. cbv zeta.
    destruct (assoc "params" d) as [p|]; [|reflexivity].
    destruct p as [| | | | | l | kw]; try discriminate; try reflexivity.
    + destruct l; reflexivity.
    + destruct kw; reflexivity.
Qed.

Lemma validated_dispatch_table_witness :
  exists d name,
    Sample.led_list_request = VDict d /\
    assoc "method" d = Some (VStr name) /\
    handle_request Sample.methods Sample.led_list_request =
      if String.eqb name "" then Raise MethodMissing
      else
        match assoc name Sample.methods with
        | None => Raise MethodNotFound
        | Some f =>
            match parameter_set
                    (match assoc "params" d with Some p => p | None => VNone end)
            with
            | Some kwargs =>
                match f kwargs with
                | inl result => Ret result
                | inr msg => Raise (HandlerError msg)
                end
            | None =>
                Raise (TypeError (callee f
                                    ++ " argument after ** must be a mapping, not list"))
            end
        end.
Proof.
  apply (validated_dispatch_table Sample.loads Sample.methods Sample.led_list_request).
  exists Sample.led_list_text. reflexivity.
Defined.

(** X16.  A request mapping without a [method] key, or with a falsy value
    under it, is refused with "method is missing" whatever the table holds
    and whatever stands under [params]: the method is tested before the
    table is consulted and before the parameters are applied. *)
Theorem handle_request_without_method (methods : list (string * handler))
        (d : list (string * value)) :
  match assoc "method" d with
  | Some method => truthy method = false
  | None => True
  end ->
  handle_request methods (VDict d) = Raise MethodMissing.
Proof.
  intros H. unfold handle_request. simpl.
  destruct (assoc "method" d) as [m|]; simpl;
    destruct (assoc "params" d); simpl; try rewrite H; reflexivity.
Qed.

Lemma handle_request_without_method_witness :
  handle_request Sample.methods Sample.no_method_request = Raise MethodMissing.
Proof.
  apply (handle_request_without_method Sample.methods
           [("id", VInt 0);
            ("params", VDict [("rgb", VList [VInt 255; VInt 0; VInt 0])])]).
  exact I.
Defined.

(** ** Decodes that fail *)

Section Failures.
Import Py.




(** X18.  A byte above 0x7f in the header position, after any run of
    ASCII bytes that are no digits, ends the decode with the decoding error
    (which names that byte, at position 0 of the one byte read); the skipped
    bytes and the offending byte are taken off the line, so the next decode
    starts behind them. *)
Theorem header_non_ascii_aborts (g : list byte) (b : byte) (rest : list byte)
        (timeout : Z) (fuel : nat) (w : world) :
  let tc := timeout_checker (TC.start_timer timeout w) in
  Forall (fun x => corrupt_byte x = true) g ->
  is_ascii_byte b = false ->
  rx (uart w) = (g ++ b :: rest)%list ->
  (0 <= interval_s tc)%Z ->
  (Z.of_nat (List.length g) * interval_s tc <= timeout_s tc)%Z ->
  (List.length g + 1 <= fuel)%nat ->
  exists w',
    receive_netstring fuel timeout w = Some (Raise (UnicodeDecodeError b 0), w') /\
    rx (uart w') = (rest ++ arrived (uart w) (List.length g + 1))%list.
Proof.
  intros tc Hg Hb Hrx HI HT Hfuel. unfold receive_netstring.
  assert (Hbud : budget (List.length g + 1) (TC.start_timer timeout w)).
  { replace (List.length g + 1)%nat with (S (List.length g)) by lia.
    apply budget_from_start; fold tc; [exact HI | exact HT]. }
  clearbody tc.
  set (w0 := TC.start_timer timeout w) in *.
  destruct (header_loop_garbage g (b :: rest) (S (fuel - List.length g - 1)) w0 Hg Hrx
              (@budget_weaken (List.length g + 1) (List.length g) w0 ltac:(lia) Hbud))
    as (wg & Heq & Hadv & Hrxg).
  replace (List.length g + S (fuel - List.length g - 1))%nat with fuel in Heq by lia.
  rewrite Heq.
  assert (Hb1 : budget 1 wg) by (apply (@budget_advanced (List.length g) 1 w0 wg Hbud Hadv)).
  simpl in Hrxg.
  destruct (@after_read1_head wg b _ Hrxg) as [Hr Hrx1].
  rewrite (@header_loop_pass _ "" wg (@budget_not_expired 0 wg Hb1)), Hr.
  simpl. rewrite Hb.
  exists (after_read1 wg).
  split; [unfold decode_error; simpl; rewrite Hb; reflexivity|].
  rewrite Hrx1, <- app_assoc. f_equal.
  destruct Hadv as (_ & _ & Hf & Hp & _).
  rewrite (arrived_app (uart w) (List.length g) 1 wg Hf Hp).
  f_equal. unfold arrived. simpl. now rewrite app_nil_r.
Qed.

Lemma header_non_ascii_aborts_witness :
  exists w',
    receive_netstring 30 5000 (Sample.server (x62 :: x3a :: xff :: Sample.frame "n"))
    = Some (Raise (UnicodeDecodeError xff 0), w') /\
    rx (uart w') = (Sample.frame "n" ++ [])%list.
Proof.
  apply (header_non_ascii_aborts [x62; x3a] xff (Sample.frame "n") 5000 30
           (Sample.server (x62 :: x3a :: xff :: Sample.frame "n"))).
  - repeat constructor.
  - reflexivity.
  - reflexivity.
  - vm_compute. discriminate.
  - vm_compute. discriminate.
  - vm_compute. lia.
Defined.

End Failures.

(** ** How long a decode takes *)

(** X19.  The header costs one poll, and one sleep, per byte: a frame that
    is already in the buffer is decoded after as many polls as its length
    numeral has digits, plus two -- one for the colon and one for the body,
    which is read in a single piece -- so 0.2 s per poll make a buffered
    60-byte request take 0.8 s. *)
Theorem receive_buffered_latency (payload : string) (bs more : list byte)
        (timeout : Z) (fuel : nat) (w : world) :
  let n := String.length (Py.str_of_int (N.of_nat (String.length payload))) in
  let tc := timeout_checker (TC.start_timer timeout w) in
  netstring payload = Some bs ->
  rx (uart w) = (bs ++ more)%list ->
  (0 <= interval_s tc)%Z ->
  ((Z.of_nat n + 1) * interval_s tc <= timeout_s tc)%Z ->
  (n + 1 <= fuel)%nat ->
  exists w',
    receive_netstring fuel timeout w = Some (Ret payload, w') /\
    polls (uart w') = (polls (uart w) + (n + 2))%nat /\
    now w' = (now w + Z.of_nat (n + 2) * interval_s (timeout_checker w))%Z.
Proof.
  intros n tc Hnet Hrx HI HT Hfuel.
  destruct (netstring_frame_parts payload bs Hnet) as (ds & pb & Hds & Hdec & Hlen & ->).
  destruct (receive_frame_general []
              (Py.str_of_int (N.of_nat (String.length payload)))
              ds pb more payload timeout fuel w)
    as (w' & Hr & Hadv & _); auto.
  - apply PyFacts.isdigit_str_of_int.
  - rewrite Hlen. apply PyFacts.int_of_str_of_int.
  - rewrite Hrx. simpl. rewrite <- !app_assoc, <- app_comm_cons, <- !app_assoc.
    reflexivity.
  - simpl List.length. fold n. replace (0 + n + 2)%nat with (S (n + 1)) by lia.
    apply budget_from_start; fold tc; [exact HI | lia].
  - simpl List.length in Hadv. fold n in Hadv.
    destruct Hadv as (_ & Hnow & _ & Hp & _).
    exists w'. split; [exact Hr|]. split; [exact Hp|].
    rewrite Hnow, start_timer_interval. reflexivity.
Qed.

Lemma receive_buffered_latency_witness :
  exists w',
    receive_netstring 30 5000 (Sample.server (Sample.frame Sample.set_led_text))
    = Some (Ret Sample.set_led_text, w') /\
    polls (uart w') = 4%nat /\
    now w' = 800%Z.
Proof.
  apply (receive_buffered_latency Sample.set_led_text
           (Sample.frame Sample.set_led_text) [] 5000 30
           (Sample.server (Sample.frame Sample.set_led_text))).
  - reflexivity.
  - vm_compute. reflexivity.
  - vm_compute. discriminate.
  - vm_compute. discriminate.
  - vm_compute. lia.
Defined.
